(** * Hybrid transcript retrieval: a shallow embedding of [search_transcripts]

    The development follows
    [backend-app-agentcore-runtime-deployment/app.py].  The tool is embedded
    as a function over an explicit description of the outside world (client
    construction, the embedding call, the vector-index call), in a small
    monad that carries raised exceptions and the log of external calls.

    Conventions of the embedding.
    - A Python [str] is a [string] whose characters are code points below
      256; [lower], [split], [strip], [count] and [in] are written out on
      that alphabet.
    - A Python [float] score is an exact rational ([Q]); [==], [<] and [>]
      on scores are [Qeq], [Qlt].  The persona weights, which are float
      literals, are also given in binary64 ([PrimFloat]) so that the one
      claim about their exact sum is checked in the arithmetic Python uses.
    - A [dict] with string keys is a [gmap string _]. *)

From Stdlib Require Import Ascii QArith Floats Lqa.
From stdpp Require Import base option list sorting strings gmap fin_maps pretty.

Open Scope string_scope.

(** ** Python string operations *)

Module PyStr.

(** [str.isspace] on one character: TAB..CR, FS..US, SPACE, NEL, NBSP. *)
Definition isspace (c : ascii) : bool :=
  let n := N_of_ascii c in
  ((9 <=? n) && (n <=? 13) || (28 <=? n) && (n <=? 32)
   || (n =? 133) || (n =? 160))%N.

(** [str.lower] on one character: A..Z and the accented capitals
    U+00C0..U+00DE (without the multiplication sign U+00D7). *)
Definition lower_char (c : ascii) : ascii :=
  let n := N_of_ascii c in
  if ((65 <=? n) && (n <=? 90)
      || (192 <=? n) && (n <=? 222) && negb (n =? 215))%N
  then ascii_of_N (n + 32) else c.

Fixpoint lower (s : string) : string :=
  match s with
  | EmptyString => EmptyString
  | String c s' => String (lower_char c) (lower s')
  end.

(** [s.startswith(p)] *)
Fixpoint startswith (p s : string) : bool :=
  match p, s with
  | EmptyString, _ => true
  | String a p', String b s' => if Ascii.eqb a b then startswith p' s' else false
  | String _ _, EmptyString => false
  end.

(** [sub in s] *)
Fixpoint contains (sub s : string) : bool :=
  startswith sub s
  || match s with
     | EmptyString => false
     | String _ s' => contains sub s'
     end.

(** [s.count(sub)]: occurrences found left to right without overlap;
    [skip] is the number of characters still covered by the last match. *)
Fixpoint count_from (sub : string) (skip : nat) (s : string) : nat :=
  match s with
  | EmptyString => 0
  | String _ s' =>
      match skip with
      | S k => count_from sub k s'
      | O => if startswith sub s
             then S (count_from sub (String.length sub - 1) s')
             else count_from sub 0 s'
      end
  end.

Definition count (s sub : string) : nat :=
  match sub with
  | EmptyString => S (String.length s)
  | _ => count_from sub 0 s
  end.

(** [s.split()]: the maximal runs of non-space characters. *)
Fixpoint split (s : string) : list string :=
  match s with
  | EmptyString => []
  | String c s' =>
      if isspace c then split s'
      else match s' with
           | EmptyString => [String c EmptyString]
           | String c' _ =>
               if isspace c' then String c EmptyString :: split s'
               else match split s' with
                    | w :: ws => String c w :: ws
                    | [] => [String c EmptyString]
                    end
           end
  end.

(** [s.split(sep)] for a one-character separator. *)
Fixpoint split_on (sep : ascii) (s : string) : list string :=
  match s with
  | EmptyString => [EmptyString]
  | String c s' =>
      if Ascii.eqb c sep then EmptyString :: split_on sep s'
      else match split_on sep s' with
           | w :: ws => String c w :: ws
           | [] => [String c EmptyString]
           end
  end.

(** [sep.join(l)] *)
Fixpoint join (sep : string) (l : list string) : string :=
  match l with
  | [] => EmptyString
  | [w] => w
  | w :: ws => w ++ sep ++ join sep ws
  end.

Fixpoint lstrip (s : string) : string :=
  match s with
  | EmptyString => EmptyString
  | String c s' => if isspace c then lstrip s' else s
  end.

Fixpoint rstrip (s : string) : string :=
  match s with
  | EmptyString => EmptyString
  | String c s' =>
      match rstrip s' with
      | EmptyString => if isspace c then EmptyString else String c EmptyString
      | r => String c r
      end
  end.

(** [s.strip()] *)
Definition strip (s : string) : string := rstrip (lstrip s).

(** [sum(s.count(t) for t in terms)] *)
Definition count_terms (s : string) (terms : list string) : nat :=
  foldr (fun t acc => count s t + acc) 0 terms.

End PyStr.

(** ** Numbers *)

(** [x < y] on scores, as a boolean. *)
Definition Qltb (x y : Q) : bool := negb (Qle_bool y x).

(** [k / max(1, n)] for two counts: Python's true division of integers. *)
Definition ratio (k n : nat) : Q :=
  (inject_Z (Z.of_nat k) / inject_Z (Z.of_nat (Nat.max 1 n)))%Q.

(** [max(xs, default=d)]: the first largest element. *)
Definition py_max (d : Q) (xs : list Q) : Q :=
  match xs with
  | [] => d
  | x :: xs' => foldl (fun m y => if Qltb m y then y else m) x xs'
  end.

(** ** Persona inference and weights *)

Inductive persona : Type := Leadership | Technical | General.

Definition leadership_terms : list string :=
  ["ciso"; "leader"; "leadership"; "executive"; "manager"; "governance";
   "strategy"; "compliance"; "policy"; "risk"; "identity"; "security";
   "authentication"; "authorization"].

Definition technical_terms : list string :=
  ["engineer"; "developer"; "implementation"; "api"; "code"; "technical";
   "tool"; "sdk"; "programming"; "configuration"; "mcp"; "bedrock"; "cognito"].

Definition leadership_conf (query : string) : Q :=
  let query_lower := PyStr.lower query in
  ratio (PyStr.count_terms query_lower leadership_terms)
        (length (PyStr.split query_lower)).

Definition technical_conf (query : string) : Q :=
  let query_lower := PyStr.lower query in
  ratio (PyStr.count_terms query_lower technical_terms)
        (length (PyStr.split query_lower)).

Definition infer_persona (query : string) : persona :=
  if Qltb (technical_conf query) (leadership_conf query) then Leadership
  else if Qltb (leadership_conf query) (technical_conf query) then Technical
  else General.

Definition semantic_weight (p : persona) : Q :=
  match p with
  | Leadership => 0.8
  | Technical => 0.6
  | General => 0.7
  end%Q.

Definition keyword_weight (p : persona) : Q :=
  (1.0 - semantic_weight p - 0.05)%Q.

(** The same two assignments in binary64, the arithmetic of the source;
    the literals are the doubles nearest to 0.8, 0.6, 0.7 and 0.05. *)
Module F64.

Definition semantic_weight (p : persona) : float :=
  match p with
  | Leadership => 0x1.999999999999ap-1
  | Technical => 0x1.3333333333333p-1
  | General => 0x1.6666666666666p-1
  end%float.

Definition metadata_weight : float := 0x1.999999999999ap-5%float.

Definition keyword_weight (p : persona) : float :=
  (1.0 - semantic_weight p - metadata_weight)%float.

End F64.

(** ** Data model *)

(** One element of the index response's [vectors]: the dict
    [{key, distance, metadata}], each entry possibly absent. *)
Record vector_result : Type := {
  vr_key : option string;
  vr_distance : option Q;
  vr_metadata : option (gmap string string)
}.

(** A candidate as the scoring loop appends it. *)
Record scored : Type := {
  doc_id : string;
  content : string;
  metadata : gmap string string;
  summary : string;
  semantic_score : Q;
  keyword_score : Q;
  metadata_score : Q;
  matched_terms : list string
}.

(** A candidate after the blending loop has stored [hybrid_score] in it. *)
Record candidate : Type := {
  base : scored;
  hybrid_score : Q
}.

(** An element of [valid_results]; the success envelope drops [summary]. *)
Record result_entry : Type := {
  r_doc_id : string;
  r_links : gmap string string;
  r_hybrid_score : Q;
  r_summary : option string
}.

(** The dict under ["output"]. *)
Record envelope : Type := {
  message : option string;
  results : option (list result_entry);
  final_recommendation : option string
}.

Definition message_only (msg : string) : envelope :=
  {| message := Some msg; results := None; final_recommendation := None |}.

(** ** Exceptions, external calls and the monad *)

(** [ClientError] is the one class the source names; every other
    [Exception] is [OtherException]. The payload is [str(e)]. *)
Inductive exn : Type :=
  | ClientError (msg : string)
  | OtherException (msg : string).

Inductive outcome (A : Type) : Type :=
  | Returned (a : A)
  | Raised (e : exn).
Arguments Returned {A} a.
Arguments Raised {A} e.

Definition obind {A B} (m : outcome A) (f : A → outcome B) : outcome B :=
  match m with
  | Returned a => f a
  | Raised e => Raised e
  end.

Fixpoint omapM {A B} (f : A → outcome B) (l : list A) : outcome (list B) :=
  match l with
  | [] => Returned []
  | x :: l' =>
      obind (f x) (fun y => obind (omapM f l') (fun ys => Returned (y :: ys)))
  end.

(** The request dict [vector_query]; index and bucket names are ambient. *)
Record vector_query : Type := {
  queryVector : list Q;
  topK : nat
}.

Inductive event : Type :=
  | CreateClient (service : string)
  | InvokeModel (inputText : string)
  | QueryVectors (q : vector_query).

(** What the outside answers. [invoke_model] gives the decoded body's
    [embedding] entry when the body has one; [query_vectors] gives the
    response's [vectors] entry when the response has one. Building the
    session and the two [Config] objects is taken to succeed. *)
Record world : Type := {
  create_client : string → outcome unit;
  invoke_model : string → outcome (option (list Q));
  query_vectors : vector_query → outcome (option (list vector_result))
}.

(** A computation may raise and appends to the log of external calls. *)
Definition M (A : Type) : Type := list event → outcome A * list event.

Definition ret {A} (a : A) : M A := fun log => (Returned a, log).

Definition bind {A B} (m : M A) (f : A → M B) : M B :=
  fun log =>
    match m log with
    | (Returned a, log') => f a log'
    | (Raised e, log') => (Raised e, log')
    end.

Definition lift {A} (o : outcome A) : M A := fun log => (o, log).

Definition call {A} (ev : event) (o : outcome A) : M A :=
  fun log => (o, (log ++ [ev])%list).

(** [try: m  except ...: h]; [h e = None] when no clause matches [e]. *)
Definition try_except {A} (m : M A) (h : exn → option (M A)) : M A :=
  fun log =>
    match m log with
    | (Returned a, log') => (Returned a, log')
    | (Raised e, log') =>
        match h e with
        | Some k => k log'
        | None => (Raised e, log')
        end
    end.

Global Instance outcome_ret : MRet outcome := @Returned.
Global Instance outcome_bind : MBind outcome := fun A B f m => obind m f.
Global Instance M_ret : MRet M := @ret.
Global Instance M_bind : MBind M := fun A B f m => bind m f.

Section External.
Variable w : world.

Definition session_client (service : string) : M unit :=
  call (CreateClient service) (create_client w service).

Definition bedrock_invoke_model (inputText : string) : M (option (list Q)) :=
  call (InvokeModel inputText) (invoke_model w inputText).

Definition s3vectors_query_vectors (q : vector_query)
  : M (option (list vector_result)) :=
  call (QueryVectors q) (query_vectors w q).

End External.

(** ** Scoring *)

Definition synonyms : gmap string (list string) :=
  list_to_map
    [("ciso", ["chief information security officer"; "security officer"]);
     ("ai", ["artificial intelligence"; "machine learning"]);
     ("security", ["cybersecurity"; "protection"; "secure"]);
     ("agentic", ["agent"; "autonomous"; "intelligent"]);
     ("leader", ["executive"; "manager"; "director"]);
     ("engineer", ["developer"; "programmer"; "technical"])].

Definition keywords_of (query_lower : string) : list string :=
  filter (fun kw => (2 ≤ String.length kw)%nat) (PyStr.split query_lower).

Definition all_keywords (query_lower : string) : list string :=
  let keywords := keywords_of query_lower in
  (keywords ++ flat_map (fun kw => default [] (synonyms !! kw)) keywords)%list.

(** [sentences = summary.split('.')];
    ['. '.join(sentences[:2]).strip() + ('.' if sentences else '')] *)
Definition truncate_summary (summary : string) : string :=
  let sentences := PyStr.split_on "." summary in
  PyStr.strip (PyStr.join ". " (take 2 sentences))
  ++ (match sentences with [] => "" | _ :: _ => "." end).

Definition persona_terms (p : persona) : option (list string) :=
  match p with
  | Leadership => Some leadership_terms
  | Technical => Some technical_terms
  | General => None
  end.

(** The body of [for result in vector_response['vectors']]. The one step
    that can raise is [result['key']]. *)
Definition score_result (p : persona) (kws : list string) (result : vector_result)
  : outcome scored :=
  let md := default ∅ (vr_metadata result) in
  let content := default "" (md !! "source_text") in
  let content_lower := PyStr.lower content in
  let sem_score := (1 - default 1.0 (vr_distance result))%Q in
  let kw_score :=
    ratio (PyStr.count_terms content_lower kws)
          (length (PyStr.split content_lower)) in
  let summary :=
    truncate_summary
      (default "No summary available." (md !! "Video Transcript Summary")) in
  let topics := PyStr.lower (default "" (md !! "When Was Each Topic Discussed")) in
  let combined_text := content_lower ++ " " ++ PyStr.lower summary ++ " " ++ topics in
  let metadata_score :=
    match persona_terms p with
    | Some terms =>
        ratio (PyStr.count_terms combined_text terms)
              (length (PyStr.split combined_text))
    | None => 0.0%Q
    end in
  let matched_terms :=
    match persona_terms p with
    | Some terms => filter (fun term => PyStr.contains term combined_text = true) terms
    | None => []
    end in
  match vr_key result with
  | None => Raised (OtherException "'key'")
  | Some k =>
      Returned {| doc_id := k; content := content; metadata := md;
                  summary := summary; semantic_score := sem_score;
                  keyword_score := kw_score; metadata_score := metadata_score;
                  matched_terms := matched_terms |}
  end.

(** [(x / mx) if mx > 0 else 0.0] *)
Definition normalize (x mx : Q) : Q :=
  if Qltb 0 mx then (x / mx)%Q else 0.0%Q.

Definition max_kw (cs : list scored) : Q := py_max 0.0 (keyword_score <$> cs).
Definition max_meta (cs : list scored) : Q := py_max 0.0 (metadata_score <$> cs).

Definition norm_kw (cs : list scored) (c : scored) : Q :=
  normalize (keyword_score c) (max_kw cs).
Definition norm_meta (cs : list scored) (c : scored) : Q :=
  normalize (metadata_score c) (max_meta cs).

(** The normalisation-and-blend loop over the whole batch. *)
Definition blend (p : persona) (cs : list scored) : list candidate :=
  (fun c =>
     {| base := c;
        hybrid_score :=
          (semantic_weight p * semantic_score c
           + keyword_weight p * norm_kw cs c
           + 0.05 * norm_meta cs c)%Q |}) <$> cs.

(** ** Clustering *)

(** The comprehension's test: leadership-term count [>=] technical-term
    count, both on the lower-cased content. *)
Definition leans_leadership (c : candidate) : bool :=
  let content_lower := PyStr.lower (content (base c)) in
  (PyStr.count_terms content_lower technical_terms
   <=? PyStr.count_terms content_lower leadership_terms)%nat.

(** [==] on two candidate dicts: entry by entry, numbers by value. *)
Definition candidate_eqb (c d : candidate) : bool :=
  String.eqb (doc_id (base c)) (doc_id (base d))
  && String.eqb (content (base c)) (content (base d))
  && bool_decide (metadata (base c) = metadata (base d))
  && String.eqb (summary (base c)) (summary (base d))
  && Qeq_bool (semantic_score (base c)) (semantic_score (base d))
  && Qeq_bool (keyword_score (base c)) (keyword_score (base d))
  && Qeq_bool (metadata_score (base c)) (metadata_score (base d))
  && bool_decide (matched_terms (base c) = matched_terms (base d))
  && Qeq_bool (hybrid_score c) (hybrid_score d).

(** [c in l] *)
Definition py_in (c : candidate) (l : list candidate) : bool :=
  existsb (candidate_eqb c) l.

Definition leadership_candidates (cs : list candidate) : list candidate :=
  List.filter leans_leadership cs.

Definition technical_candidates (cs : list candidate) : list candidate :=
  List.filter (fun c => negb (py_in c (leadership_candidates cs))) cs.

(** [l.sort(key=lambda x: x['hybrid_score'], reverse=True)]: the sort is
    stable, so the result is fixed by the keys: an element goes behind every
    element with a larger or equal key that came before it. *)
Fixpoint insert_desc (x : candidate) (l : list candidate) : list candidate :=
  match l with
  | [] => [x]
  | y :: l' =>
      if Qltb (hybrid_score x) (hybrid_score y) then y :: insert_desc x l'
      else x :: l
  end.

Definition sort_desc (l : list candidate) : list candidate :=
  foldr insert_desc [] l.

Definition select_top_docs (p : persona) (cs : list candidate) : list candidate :=
  let lc := leadership_candidates cs in
  let tc := technical_candidates cs in
  match p, lc with
  | Leadership, _ :: _ =>
      let top_docs := take 2 (sort_desc lc) in
      if (length top_docs <? 2)%nat then
        match sort_desc tc with
        | t :: _ => (top_docs ++ [t])%list
        | [] => top_docs
        end
      else top_docs
  | _, _ => take 5 (sort_desc cs)
  end.

(** ** Link filter *)

(** Output key and metadata field, in the order the source lists them. *)
Definition link_fields : list (string * string) :=
  [("external_youtube_link", "External Youtube Link");
   ("content_link", "Content Link");
   ("deck_link", "Deck Link");
   ("internal_broadcast_link", "Internal Broadcast Video Link")].

(** [value and value.lower() not in ["not available", ""]] *)
Definition usable (value : string) : bool :=
  negb (String.eqb value "")
  && negb (existsb (String.eqb (PyStr.lower value)) ["not available"; ""]).

Definition extract_links (md : gmap string string) : gmap string string :=
  foldl (fun links kf =>
           let value := default "" (md !! kf.2) in
           if usable value then <[kf.1 := value]> links else links)
        ∅ link_fields.

Definition collect_valid_results (top_docs : list candidate) : list result_entry :=
  flat_map (fun doc =>
              let links := extract_links (metadata (base doc)) in
              if bool_decide (links = ∅) then []
              else [{| r_doc_id := doc_id (base doc);
                       r_links := links;
                       r_hybrid_score := hybrid_score doc;
                       r_summary := Some (summary (base doc)) |}])
           top_docs.

(** Scoring, clustering and link filtering of one index response; the
    source has this sequence twice, once per query. *)
Definition score_batch (p : persona) (kws : list string)
    (vectors : list vector_result) : outcome (list candidate) :=
  cs ← omapM (score_result p kws) vectors;
  mret (blend p cs).

Definition run_pass (p : persona) (kws : list string)
    (vectors : list vector_result) : outcome (list result_entry) :=
  candidates ← score_batch p kws vectors;
  mret (collect_valid_results (select_top_docs p candidates)).

(** ** Output *)

Definition insufficient_recommendation : string :=
  "Insufficient relevant videos found to provide a recommendation.".

Definition newline : string := String (ascii_of_nat 10) EmptyString.

Definition strip_summary (r : result_entry) : result_entry :=
  {| r_doc_id := r_doc_id r; r_links := r_links r;
     r_hybrid_score := r_hybrid_score r; r_summary := None |}.

Definition recommendation_text (r1 r2 : result_entry) : string :=
  let recommendation_level :=
    if Qltb 0.5 (r_hybrid_score r1) then "Highly recommended"
    else "Moderately relevant" in
  let top_summary := default "No summary available." (r_summary r1) in
  let second_summary := default "No summary available." (r_summary r2) in
  recommendation_level ++ ": Relevant for agentic AI security." ++ newline
  ++ "- Video 1 (" ++ r_doc_id r1 ++ "): " ++ top_summary ++ newline
  ++ "- Video 2 (" ++ r_doc_id r2 ++ "): " ++ second_summary ++ newline
  ++ "Start with Video 1 for its focus on AI agent security.".

(** Steps 8 and 9. [filtered_results[1]] on a one-element list would be
    an [IndexError]. *)
Definition prepare_output (valid_results : list result_entry) : outcome envelope :=
  if (length valid_results <? 2)%nat then
    Returned
      {| message :=
           Some ("ERROR: Found only " ++ pretty (length valid_results)
                 ++ " video(s) with valid links; at least 2 required");
         results := Some valid_results;
         final_recommendation := Some insufficient_recommendation |}
  else
    let filtered_results := take 2 valid_results in
    match filtered_results with
    | [] =>
        Returned {| message := None; results := Some [];
                    final_recommendation := Some "No relevant results found." |}
    | [_] => Raised (OtherException "list index out of range")
    | r1 :: r2 :: _ =>
        Returned {| message := None;
                    results := Some (strip_summary <$> filtered_results);
                    final_recommendation := Some (recommendation_text r1 r2) |}
    end.

(** ** The tool *)

(** [not vector_response.get('vectors')]: absent or empty. *)
Definition vectors_of (response : option (list vector_result)) : list vector_result :=
  default [] response.

Section Tool.
Variable w : world.

(** Step 7: the retry with [topK = 15]. *)
Definition retry (p : persona) (kws : list string) (embedding : list Q)
    (valid_results : list result_entry) : M (list result_entry) :=
  if (length valid_results <? 2)%nat then
    response ← s3vectors_query_vectors w {| queryVector := embedding; topK := 15 |};
    match vectors_of response with
    | [] => mret valid_results
    | vectors => lift (run_pass p kws vectors)
    end
  else mret valid_results.

(** The body of the second [try]. *)
Definition pipeline (query : string) : M envelope :=
  let query_lower := PyStr.lower query in
  let p := infer_persona query in
  embedding_data ← bedrock_invoke_model w query;
  match embedding_data with
  | None => mret (message_only "NO_RELEVANT_OUTPUT")
  | Some query_embedding =>
      response ←
        s3vectors_query_vectors w {| queryVector := query_embedding; topK := 10 |};
      match vectors_of response with
      | [] => mret (message_only "NO_RELEVANT_OUTPUT")
      | vectors =>
          let kws := all_keywords query_lower in
          valid_results ← lift (run_pass p kws vectors);
          valid_results ← retry p kws query_embedding valid_results;
          lift (prepare_output valid_results)
      end
  end.

Definition create_clients : M (option envelope) :=
  try_except
    (session_client w "bedrock-runtime";;
     session_client w "s3vectors";;
     mret None)
    (fun e =>
       match e with
       | ClientError msg => Some (mret (Some (message_only ("ClientError: " ++ msg))))
       | OtherException _ => None
       end).

(** The two [except] clauses that close the second [try]. *)
Definition error_envelope (e : exn) : envelope :=
  match e with
  | ClientError msg => message_only ("ClientError: " ++ msg)
  | OtherException msg => message_only ("Exception: " ++ msg)
  end.

Definition search_transcripts (query : string) : M envelope :=
  early ← create_clients;
  match early with
  | Some env => mret env
  | None => try_except (pipeline query) (fun e => Some (mret (error_envelope e)))
  end.

(** One call of the tool, from an empty log. *)
Definition run_tool (query : string) : outcome envelope * list event :=
  search_transcripts query [].

End Tool.

(** ** Reference definitions for the statements *)

(** The summary rule in the documentation's words: the first two segments
    of the split on ['.'], joined with ['.'], and a final period when there
    are segments. *)
Definition truncate_summary_as_documented (summary : string) : string :=
  let segments := PyStr.split_on "." summary in
  PyStr.join "." (take 2 segments)
  ++ (match segments with [] => "" | _ :: _ => "." end).

(** Creating the two clients, in the order of the source. *)
Definition clients_outcome (w : world) : outcome unit :=
  _ ← create_client w "bedrock-runtime"; create_client w "s3vectors".

(** The valid results of the first pass (with the query embedding), when
    the run gets as far as computing them. *)
Definition first_pass (w : world) (query : string)
  : option (list Q * list result_entry) :=
  match clients_outcome w, invoke_model w query with
  | Returned _, Returned (Some emb) =>
      match query_vectors w {| queryVector := emb; topK := 10 |} with
      | Returned (Some (v :: vs)) =>
          match run_pass (infer_persona query)
                  (all_keywords (PyStr.lower query)) (v :: vs) with
          | Returned valid => Some (emb, valid)
          | Raised _ => None
          end
      | _ => None
      end
  | _, _ => None
  end.

(** The link-bearing candidates left after at most one retry, when the run
    reaches the output step. *)
Definition surviving (w : world) (query : string) : option (list result_entry) :=
  match first_pass w query with
  | Some (emb, valid) =>
      if (length valid <? 2)%nat then
        match query_vectors w {| queryVector := emb; topK := 15 |} with
        | Returned (Some (v :: vs)) =>
            match run_pass (infer_persona query)
                    (all_keywords (PyStr.lower query)) (v :: vs) with
            | Returned valid' => Some valid'
            | Raised _ => None
            end
        | Returned _ => Some valid
        | Raised _ => None
        end
      else Some valid
  | None => None
  end.

(** The [topK] of the vector queries in a log, in order. *)
Definition query_topKs (log : list event) : list nat :=
  flat_map (fun ev => match ev with QueryVectors q => [topK q] | _ => [] end) log.

(** The success shape: results and recommendation, no message. *)
Definition is_success (env : envelope) : Prop :=
  message env = None ∧ is_Some (results env) ∧ is_Some (final_recommendation env).

(** What the second [try] hands back for an outcome of its body. *)
Definition handled (o : outcome envelope) : outcome envelope :=
  match o with
  | Returned env => Returned env
  | Raised e => Returned (error_envelope e)
  end.

(** The output floor in the documentation's words: success exactly when at
    least two candidates survive; otherwise a failure envelope with a
    results list of fewer than two surviving candidates and the fixed
    recommendation text. *)
Definition floor_as_documented (w : world) (query : string) : Prop :=
  ∃ env, (run_tool w query).1 = Returned env
    ∧ let survivors := default [] (surviving w query) in
      (is_success env ↔ (2 ≤ length survivors)%nat)
      ∧ (¬ is_success env →
         is_Some (message env)
         ∧ (∃ rs, results env = Some rs ∧ rs ⊆ survivors ∧ (length rs < 2)%nat)
         ∧ final_recommendation env = Some insufficient_recommendation).

(** A metadata field that gives no link: absent, empty, or the
    placeholder in any letter case. *)
Definition unusable_field (md : gmap string string) (field : string) : Prop :=
  match md !! field with
  | None => True
  | Some u => u = "" ∨ PyStr.lower u = "not available"
  end.

(** All four link fields give no link. *)
Definition no_usable_link (md : gmap string string) : Prop :=
  ∀ k field, (k, field) ∈ link_fields → unusable_field md field.

(** [hybrid_score] does not go up along the list. *)
Definition descending {A} (key : A → Q) (l : list A) : Prop :=
  StronglySorted (fun a b => (key b <= key a)%Q) l.

(** ** Sample worlds *)

Definition sample_result (key : string) (dist : Q) (text : string)
    (fields : list (string * string)) : vector_result :=
  {| vr_key := Some key;
     vr_distance := Some dist;
     vr_metadata := Some (list_to_map (("source_text", text) :: fields)) |}.

Definition sample_world (first second : option (list vector_result)) : world :=
  {| create_client := fun _ => Returned ();
     invoke_model := fun _ => Returned (Some [0.25%Q; 0.5%Q]);
     query_vectors := fun q =>
       Returned (if (topK q =? 10)%nat then first else second) |}.

Definition leadership_doc : vector_result :=
  sample_result "doc-lead" 0.9 "Security governance for the board"
    [("Video Transcript Summary", "Governance talk. For leaders. Extra.");
     ("Deck Link", "https://example.com/deck")].

Definition technical_doc : vector_result :=
  sample_result "doc-tech" 0.1 "An api and sdk code walkthrough"
    [("External Youtube Link", "https://example.com/video");
     ("Content Link", "Not Available")].

Definition unlinked_doc : vector_result :=
  sample_result "doc-none" 0.2 "Risk and policy overview"
    [("External Youtube Link", "NOT AVAILABLE"); ("Content Link", "")].

Definition strategy_doc : vector_result :=
  sample_result "doc-strategy" 0.3 "Risk strategy and compliance policy"
    [("Content Link", "https://example.com/content");
     ("Internal Broadcast Video Link", "not available")].

Definition ciso_query : string := "What should a CISO know about agentic AI security?".

(** One leadership-leaning and one technical-leaning document, both linked. *)
Definition backfill_world : world :=
  sample_world (Some [leadership_doc; technical_doc]) None.

(** The index answers the first query with no vectors. *)
Definition empty_index_world : world := sample_world (Some []) None.

(** One linked document only; the retry finds nothing. *)
Definition lone_world : world :=
  sample_world (Some [leadership_doc; unlinked_doc]) (Some []).

(** Two linked leadership-leaning documents and a technical one. *)
Definition ranked_world : world :=
  sample_world (Some [leadership_doc; strategy_doc; technical_doc]) None.

(** [session.client('s3vectors')] raises botocore's [UnknownServiceError],
    which is not a [ClientError]. *)
Definition unknown_service_world : world :=
  {| create_client := fun service =>
       if String.eqb service "s3vectors"
       then Raised (OtherException "Unknown service: 's3vectors'")
       else Returned ();
     invoke_model := fun _ => Returned (Some []);
     query_vectors := fun _ => Returned None |}.

(** A scored candidate with the given raw keyword and metadata scores. *)
Definition sample_scored (kw meta : Q) : scored :=
  {| doc_id := "doc"; content := ""; metadata := ∅; summary := "";
     semantic_score := 0.5; keyword_score := kw; metadata_score := meta;
     matched_terms := [] |}.

(** ** More sample worlds *)

(** A vector of the response without a [key] entry. *)
Definition keyless_doc : vector_result :=
  {| vr_key := None; vr_distance := Some 0.4%Q;
     vr_metadata := Some {[ "source_text" := "Identity policy" ]} |}.

Definition keyless_world : world :=
  sample_world (Some [leadership_doc; keyless_doc; technical_doc]) None.

(** One linked document in the first response; the retry finds only an
    unlinked one. *)
Definition losing_retry_world : world :=
  sample_world (Some [leadership_doc; unlinked_doc]) (Some [unlinked_doc]).

(** One linked document in the first response; the retry query is throttled. *)
Definition throttled_retry_world : world :=
  {| create_client := fun _ => Returned ();
     invoke_model := fun _ => Returned (Some [0.25%Q; 0.5%Q]);
     query_vectors := fun q =>
       if (topK q =? 10)%nat then Returned (Some [leadership_doc; unlinked_doc])
       else Raised (ClientError "ThrottlingException") |}.

(** The embedding response has no [embedding] entry. *)
Definition no_embedding_world : world :=
  {| create_client := fun _ => Returned ();
     invoke_model := fun _ => Returned None;
     query_vectors := fun _ => Returned (Some [leadership_doc; technical_doc]) |}.

(** ** The entrypoint [invoke] *)

(** [str.strip(chars)], [str.rstrip(chars)] and [str.replace(old, new)]. *)
Module PyChars.

Fixpoint in_chars (chars : string) (c : ascii) : bool :=
  match chars with
  | EmptyString => false
  | String a chars' => Ascii.eqb c a || in_chars chars' c
  end.

Fixpoint lstrip (chars s : string) : string :=
  match s with
  | EmptyString => EmptyString
  | String c s' => if in_chars chars c then lstrip chars s' else s
  end.

Fixpoint rstrip (chars s : string) : string :=
  match s with
  | EmptyString => EmptyString
  | String c s' =>
      match rstrip chars s' with
      | EmptyString =>
          if in_chars chars c then EmptyString else String c EmptyString
      | r => String c r
      end
  end.

Definition strip (chars s : string) : string := rstrip chars (lstrip chars s).

(** Occurrences are replaced left to right without overlap; [skip] counts
    the characters of [s] still covered by the last occurrence. *)
Fixpoint replace_from (old new : string) (skip : nat) (s : string) : string :=
  match s with
  | EmptyString => EmptyString
  | String c s' =>
      match skip with
      | S k => replace_from old new k s'
      | O => if PyStr.startswith old s
             then new ++ replace_from old new (String.length old - 1) s'
             else String c (replace_from old new 0 s')
      end
  end.

(** With an empty [old], [new] goes before every character and at the end. *)
Fixpoint intersperse (new s : string) : string :=
  match s with
  | EmptyString => new
  | String c s' => new ++ String c (intersperse new s')
  end.

Definition replace (s old new : string) : string :=
  match old with
  | EmptyString => intersperse new s
  | _ => replace_from old new 0 s
  end.

End PyChars.

Definition backslash : string := String (ascii_of_nat 92) EmptyString.
Definition dquote : string := String (ascii_of_nat 34) EmptyString.
Definition squote : string := String (ascii_of_nat 39) EmptyString.

(** The argument of [strip]: the letter b, the single and the double quote. *)
Definition wrapper_chars : string := "b" ++ squote ++ dquote.

(** [r.strip(wrapper_chars).rstrip(squote)] *)
Definition unwrap (r : string) : string :=
  PyChars.rstrip squote (PyChars.strip wrapper_chars r).

(** The cleaning chain: [strip], [rstrip], then backslash-quote becomes
    quote, then backslash-backslash becomes backslash. *)
Definition clean_response (response : string) : string :=
  PyChars.replace
    (PyChars.replace (unwrap response) (backslash ++ dquote) dquote)
    (backslash ++ backslash) backslash.

(** What the agent call gives back: a [str], a [list] of [str], or any
    other object. *)
Inductive agent_response (R : Type) : Type :=
  | RespStr (s : string)
  | RespList (l : list string)
  | RespOther (r : R).
Arguments RespStr {R} s.
Arguments RespList {R} l.
Arguments RespOther {R} r.

(** What [invoke] returns: the pair of the error dict and the status, the
    parsed JSON value, the dict with the decode message, or the agent's
    object as it is. *)
Inductive invoke_result (J R : Type) : Type :=
  | NoPrompt (error : string) (status : nat)
  | Parsed (j : J)
  | DecodeFailed (message : string)
  | Passed (r : R).
Arguments NoPrompt {J R} error status.
Arguments Parsed {J R} j.
Arguments DecodeFailed {J R} message.
Arguments Passed {J R} r.

Section Entrypoint.
Variables J R : Type.
(** [content_agent(prompt)] may raise. *)
Variable content_agent : string → outcome (agent_response R).
(** [json.loads]: the value, or the text of the [JSONDecodeError]. *)
Variable json_loads : string → J + string.

(** The body of [if isinstance(response, (str, list))]. *)
Definition parse_response (response : string) : invoke_result J R :=
  match json_loads (clean_response response) with
  | inl j => Parsed j
  | inr e => DecodeFailed ("JSONDecodeError: " ++ e)
  end.

(** The result, and the prompts the agent was called with. *)
Definition invoke (payload : gmap string string)
  : outcome (invoke_result J R) * list string :=
  match payload !! "prompt" with
  | None | Some EmptyString => (Returned (NoPrompt "No prompt provided" 400), [])
  | Some prompt =>
      (match content_agent prompt with
       | Raised e => Raised e
       | Returned (RespStr s) => Returned (parse_response s)
       | Returned (RespList l) =>
           Returned (parse_response (PyStr.join "" (unwrap <$> l)))
       | Returned (RespOther r) => Returned (Passed r)
       end, [prompt])
  end.

End Entrypoint.

(** The escaping that the cleaning chain undoes: a backslash before every
    backslash and every double quote. *)
Fixpoint escape (s : string) : string :=
  match s with
  | EmptyString => EmptyString
  | String c s' =>
      if Ascii.eqb c (ascii_of_nat 92) then backslash ++ backslash ++ escape s'
      else if Ascii.eqb c (ascii_of_nat 34) then backslash ++ dquote ++ escape s'
      else String c (escape s')
  end.

(** Every character of [w] is one of [chars]. *)
Fixpoint all_in (chars w : string) : bool :=
  match w with
  | EmptyString => true
  | String c w' => PyChars.in_chars chars c && all_in chars w'
  end.

(** The text between the two replacements: backslashes still doubled. *)
Fixpoint double_backslashes (s : string) : string :=
  match s with
  | EmptyString => EmptyString
  | String c s' =>
      if Ascii.eqb c (ascii_of_nat 92)
      then backslash ++ backslash ++ double_backslashes s'
      else String c (double_backslashes s')
  end.

(** ** Provisioning: [cfnresponse.send] and the two custom-resource handlers *)

Module Cfn.

(** The exception classes the handlers tell apart; [str(e)] is the text,
    and a [ClientError] also has [e.response['Error']['Code']]. *)
Inductive py_exn : Type :=
  | BotoClientError (code : option string) (text : string)
  | KeyError (key : string)
  | ValueError (text : string)
  | RequestException (text : string)
  | OtherError (text : string).

Definition exn_str (e : py_exn) : string :=
  match e with
  | BotoClientError _ text => text
  | KeyError key => "'" ++ key ++ "'"
  | ValueError text | RequestException text | OtherError text => text
  end.

Inductive res (A : Type) : Type :=
  | Ok (a : A)
  | Err (e : py_exn).
Arguments Ok {A} a.
Arguments Err {A} e.

(** The handler's [event] dict: its string entries and
    [ResourceProperties]. *)
Record cfn_event : Type := {
  fields : gmap string string;
  ResourceProperties : option (gmap string string)
}.

Record lambda_context : Type := {
  log_stream_name : string;
  remaining_time_in_millis : Z
}.

Record response_body : Type := {
  Status : string;
  Reason : string;
  PhysicalResourceId : string;
  StackId : string;
  RequestId : string;
  LogicalResourceId : string;
  NoEcho : bool;
  Data : gmap string string
}.

(** What the handlers do to the outside, in order. *)
Inductive action : Type :=
  | NewClient (service region : string)
  | CreateVectorBucket (name : string)
  | DeleteVectorBucket (name : string)
  | DeleteIndex (bucket index : string)
  | Sleep (seconds : nat)
  | HttpPut (url : string) (body : response_body) (content_length : string).

(** The outside: the environment variables, client construction, the
    three API calls (their answer may differ from one attempt to the next),
    [json.dumps] and [requests.put] followed by [raise_for_status]. *)
Record cfn_world : Type := {
  environ : gmap string string;
  boto3_client : string → string → res unit;
  create_vector_bucket : nat → string → res unit;
  delete_vector_bucket : nat → string → res unit;
  delete_index : nat → string → string → res unit;
  json_dumps : response_body → string;
  requests_put : string → string → res unit
}.

Definition C (A : Type) : Type := list action → res A * list action.

Definition cret {A} (a : A) : C A := fun log => (Ok a, log).

Definition cbind {A B} (m : C A) (f : A → C B) : C B :=
  fun log =>
    match m log with
    | (Ok a, log') => f a log'
    | (Err e, log') => (Err e, log')
    end.

Definition raise {A} (e : py_exn) : C A := fun log => (Err e, log).

Definition perform {A} (a : action) (r : res A) : C A :=
  fun log => (r, (log ++ [a])%list).

(** [try: m  except Exception as e: h e] *)
Definition catch {A} (m : C A) (h : py_exn → C A) : C A :=
  fun log =>
    match m log with
    | (Ok a, log') => (Ok a, log')
    | (Err e, log') => h e log'
    end.

(** The outcome of [m] as a value, for a [try] with several clauses. *)
Definition attempt {A} (m : C A) : C (res A) :=
  fun log => match m log with (r, log') => (Ok r, log') end.

Global Instance C_ret : MRet C := @cret.
Global Instance C_bind : MBind C := fun A B f m => cbind m f.

Definition SUCCESS : string := "SUCCESS".
Definition FAILED : string := "FAILED".

(** [str(e)[:200]] *)
Definition short (e : py_exn) : string := String.substring 0 200 (exn_str e).

(** [event[key]] *)
Definition subscript (event : cfn_event) (key : string) : C string :=
  match fields event !! key with
  | Some v => mret v
  | None => raise (KeyError key)
  end.

(** [x or y] on strings that may be absent. *)
Definition or_else (x : option string) (y : string) : string :=
  match x with
  | None | Some EmptyString => y
  | Some v => v
  end.

Section Send.
Variable w : cfn_world.

(** [cfnresponse.send]; every [except] clause re-raises. *)
Definition send (event : cfn_event) (context : lambda_context)
    (responseStatus : string) (responseData : gmap string string)
    (physicalResourceId : option string) (noEcho : bool)
    (reason : option string) : C unit :=
  responseUrl ← subscript event "ResponseURL";
  stack ← subscript event "StackId";
  request ← subscript event "RequestId";
  logical ← subscript event "LogicalResourceId";
  let responseBody :=
    {| Status := responseStatus;
       Reason := or_else reason
                   ("See the details in CloudWatch Log Stream: "
                    ++ log_stream_name context);
       PhysicalResourceId := or_else physicalResourceId (log_stream_name context);
       StackId := stack; RequestId := request; LogicalResourceId := logical;
       NoEcho := noEcho; Data := responseData |} in
  let json_responseBody := json_dumps w responseBody in
  let content_length := pretty (String.length json_responseBody) in
  if negb (PyStr.startswith "https://" responseUrl)
  then raise (ValueError "Response URL must use HTTPS scheme")
  else perform (HttpPut responseUrl responseBody content_length)
         (requests_put w responseUrl json_responseBody).

End Send.

(** The three variables the handlers update before the [finally]. *)
Record report : Type := {
  status : string;
  reason : string;
  physical_resource_id : option string
}.

Definition with_reason (st : report) (r : string) : report :=
  {| status := status st; reason := r;
     physical_resource_id := physical_resource_id st |}.

Definition failed (st : report) (r : string) : report :=
  {| status := FAILED; reason := r;
     physical_resource_id := physical_resource_id st |}.

Inductive flow : Type := Break | Next.

(** [for attempt in attempts: body  else: orelse]; [continue] and the end
    of the body are both [Next]. *)
Fixpoint for_else (body : nat → report → C (flow * report))
    (orelse : report → report) (attempts : list nat) (st : report) : C report :=
  match attempts with
  | [] => mret (orelse st)
  | a :: rest =>
      r ← body a st;
      match r.1 with
      | Break => mret r.2
      | Next => for_else body orelse rest r.2
      end
  end.

Definition max_retries : nat := 3.

(** [code in codes] for a code that may be absent. *)
Definition code_in (code : option string) (codes : list string) : bool :=
  match code with
  | Some c => existsb (String.eqb c) codes
  | None => false
  end.

Definition throttling_codes : list string :=
  ["ThrottlingException"; "TooManyRequestsException"].

End Cfn.

(** [s3vector_support_app.handler]: the vector bucket. *)
Module BucketHandler.
Import Cfn.

Section Handler.
Variable w : cfn_world.
Variable event : cfn_event.
Variable context : lambda_context.

Definition not_found_codes : list string :=
  ["ResourceNotFoundException"; "BucketNotFound"].

(** The [Delete] branch with its two [except] clauses. *)
Definition delete_step (bucket_name : string) (n : nat) (st : report)
  : C (flow * report) :=
  r ← attempt (perform (DeleteVectorBucket bucket_name)
                 (delete_vector_bucket w n bucket_name));
  match r with
  | Ok _ => mret (Break, with_reason st ("Deleted bucket " ++ bucket_name))
  | Err (BotoClientError error_code text) =>
      if code_in error_code not_found_codes then
        mret (Break, with_reason st
                       ("Bucket " ++ bucket_name ++ " not found, no deletion needed"))
      else if code_in error_code throttling_codes && (n <? max_retries - 1)%nat
      then _ ← perform (Sleep (2 ^ n)) (Ok ()); mret (Next, st)
      else mret (Break, failed st
                          ("Failed to delete bucket: "
                           ++ short (BotoClientError error_code text)))
  | Err e => mret (Break, failed st ("Unexpected error: " ++ short e))
  end.

(** One pass through the body of the [for] loop. *)
Definition iteration (request_type bucket_name : string) (n : nat) (st : report)
  : C (flow * report) :=
  catch
    (if String.eqb request_type "Create" then
       _ ← perform (CreateVectorBucket bucket_name)
             (create_vector_bucket w n bucket_name);
       mret (Break, with_reason st ("Created bucket " ++ bucket_name))
     else if String.eqb request_type "Update" then
       mret (Break, with_reason st "Updated (no-op)")
     else if String.eqb request_type "Delete" then
       delete_step bucket_name n st
     else mret (Break, st))
    (fun e =>
       if (n <? max_retries - 1)%nat
       then _ ← perform (Sleep (2 ^ n)) (Ok ()); mret (Next, st)
       else mret (Next, failed st
                          ("Critical error during " ++ request_type ++ ": "
                           ++ short e))).

Definition exceeded (request_type bucket_name : string) (st : report) : report :=
  match reason st with
  | EmptyString =>
      failed st ("Exceeded retries for " ++ request_type ++ " on bucket "
                 ++ bucket_name)
  | _ => st
  end.

(** The [try] with its [except]; each early [return] ends it. *)
Definition decide : C report :=
  let st := {| status := SUCCESS; reason := "";
               physical_resource_id := fields event !! "PhysicalResourceId" |} in
  match fields event !! "RequestType" with
  | None | Some EmptyString => mret (failed st "Missing RequestType")
  | Some request_type =>
      let properties := default ∅ (ResourceProperties event) in
      match properties !! "BucketName" with
      | None | Some EmptyString => mret (failed st "Missing BucketName")
      | Some bucket_name =>
          if (remaining_time_in_millis context <? 10000)%Z
          then mret (failed st "Insufficient time")
          else
            let st :=
              {| status := status st; reason := reason st;
                 physical_resource_id :=
                   Some (or_else (physical_resource_id st)
                           ("vector-bucket-" ++ bucket_name)) |} in
            catch
              (let region := default "us-east-1" (environ w !! "AWS_REGION") in
               _ ← perform (NewClient "s3vectors" region)
                     (boto3_client w "s3vectors" region);
               for_else (iteration request_type bucket_name)
                 (exceeded request_type bucket_name)
                 (seq 0 max_retries) st)
              (fun e => mret (failed st ("Unhandled exception: " ++ short e)))
      end
  end.

(** The [finally] clause sends whatever was decided. *)
Definition handler : C unit :=
  st ← decide;
  send w event context (status st) ∅ (physical_resource_id st) false
    (Some (reason st)).

Definition run : res unit * list action := handler [].

End Handler.
End BucketHandler.

(** [clean_index.handler]: the vector index. *)
Module IndexHandler.
Import Cfn.

Section Handler.
Variable w : cfn_world.
Variable event : cfn_event.
Variable context : lambda_context.

Definition not_found_codes : list string :=
  ["ResourceNotFoundException"; "IndexNotFound"].

Definition delete_step (vector_bucket index_name : string) (n : nat) (st : report)
  : C (flow * report) :=
  r ← attempt (perform (DeleteIndex vector_bucket index_name)
                 (delete_index w n vector_bucket index_name));
  match r with
  | Ok _ => mret (Break, with_reason st ("Deleted index " ++ index_name))
  | Err (BotoClientError error_code text) =>
      if code_in error_code not_found_codes then
        mret (Break, with_reason st
                       ("Index " ++ index_name ++ " not found, no deletion needed"))
      else if code_in error_code throttling_codes && (n <? max_retries - 1)%nat
      then _ ← perform (Sleep (2 ^ n)) (Ok ()); mret (Next, st)
      else mret (Break, failed st
                          ("Failed to delete index: "
                           ++ short (BotoClientError error_code text)))
  | Err e => mret (Break, failed st ("Unexpected error: " ++ short e))
  end.

Definition iteration (request_type vector_bucket index_name : string)
    (n : nat) (st : report) : C (flow * report) :=
  catch
    (if String.eqb request_type "Create" then
       mret (Break, with_reason st "Created (no-op)")
     else if String.eqb request_type "Update" then
       mret (Break, with_reason st "Updated (no-op)")
     else if String.eqb request_type "Delete" then
       delete_step vector_bucket index_name n st
     else mret (Break, st))
    (fun e =>
       if (n <? max_retries - 1)%nat
       then _ ← perform (Sleep (2 ^ n)) (Ok ()); mret (Next, st)
       else mret (Next, failed st
                          ("Critical error during " ++ request_type ++ ": "
                           ++ short e))).

Definition exceeded (request_type index_name : string) (st : report) : report :=
  match reason st with
  | EmptyString =>
      failed st ("Exceeded retries for " ++ request_type ++ " on index "
                 ++ index_name)
  | _ => st
  end.

(** [properties.get(key, os.environ.get(var))] *)
Definition property_or_env (properties : gmap string string) (key var : string)
  : option string :=
  match properties !! key with
  | Some v => Some v
  | None => environ w !! var
  end.

Definition falsy (x : option string) : bool :=
  match x with
  | None | Some EmptyString => true
  | Some _ => false
  end.

Definition decide : C report :=
  let st := {| status := SUCCESS; reason := "";
               physical_resource_id := fields event !! "PhysicalResourceId" |} in
  match fields event !! "RequestType" with
  | None | Some EmptyString => mret (failed st "Missing RequestType")
  | Some request_type =>
      let properties := default ∅ (ResourceProperties event) in
      let vector_bucket := property_or_env properties "S3VectorBucket" "VECTOR_BUCKET" in
      let index_name := property_or_env properties "IndexName" "INDEX_NAME" in
      if falsy vector_bucket || falsy index_name
      then mret (failed st "Missing parameters")
      else if (remaining_time_in_millis context <? 10000)%Z
      then mret (failed st "Insufficient time")
      else
        let vector_bucket := default "" vector_bucket in
        let index_name := default "" index_name in
        let st :=
          {| status := status st; reason := reason st;
             physical_resource_id :=
               Some (or_else (physical_resource_id st)
                       ("index-" ++ vector_bucket ++ "-" ++ index_name)) |} in
        catch
          (let region := default "us-east-1" (environ w !! "AWS_REGION") in
           _ ← perform (NewClient "s3vectors" region)
                 (boto3_client w "s3vectors" region);
           for_else (iteration request_type vector_bucket index_name)
             (exceeded request_type index_name)
             (seq 0 max_retries) st)
          (fun e => mret (failed st ("Unhandled exception: " ++ short e)))
  end.

Definition handler : C unit :=
  st ← decide;
  send w event context (status st) ∅ (physical_resource_id st) false
    (Some (reason st)).

Definition run : res unit * list action := handler [].

End Handler.
End IndexHandler.

(** An action that answers CloudFormation. *)
Definition is_put (a : Cfn.action) : bool :=
  match a with
  | Cfn.HttpPut _ _ _ => true
  | _ => false
  end.

(** An action that calls the vector API. *)
Definition is_api_call (a : Cfn.action) : bool :=
  match a with
  | Cfn.CreateVectorBucket _ | Cfn.DeleteVectorBucket _ | Cfn.DeleteIndex _ _ => true
  | _ => false
  end.

(** The bucket handler gets as far as its retry loop: request type and
    bucket name are present and not empty, enough time is left, and the
    client is built. *)
Definition bucket_ready (w : Cfn.cfn_world) (event : Cfn.cfn_event)
    (context : Cfn.lambda_context) (request_type name : string) : Prop :=
  Cfn.fields event !! "RequestType" = Some request_type
  ∧ request_type ≠ ""
  ∧ default ∅ (Cfn.ResourceProperties event) !! "BucketName" = Some name
  ∧ name ≠ ""
  ∧ (10000 <= Cfn.remaining_time_in_millis context)%Z
  ∧ Cfn.boto3_client w "s3vectors"
      (default "us-east-1" (Cfn.environ w !! "AWS_REGION")) = Cfn.Ok ().

(** The same for the index handler, with the two names taken from the
    properties or else from the environment. *)
Definition index_ready (w : Cfn.cfn_world) (event : Cfn.cfn_event)
    (context : Cfn.lambda_context) (request_type bucket index : string) : Prop :=
  Cfn.fields event !! "RequestType" = Some request_type
  ∧ request_type ≠ ""
  ∧ IndexHandler.property_or_env w (default ∅ (Cfn.ResourceProperties event))
      "S3VectorBucket" "VECTOR_BUCKET" = Some bucket
  ∧ bucket ≠ ""
  ∧ IndexHandler.property_or_env w (default ∅ (Cfn.ResourceProperties event))
      "IndexName" "INDEX_NAME" = Some index
  ∧ index ≠ ""
  ∧ (10000 <= Cfn.remaining_time_in_millis context)%Z
  ∧ Cfn.boto3_client w "s3vectors"
      (default "us-east-1" (Cfn.environ w !! "AWS_REGION")) = Cfn.Ok ().

(** ** Sample provisioning requests *)

Definition sample_event (request_type : string)
    (properties : gmap string string) : Cfn.cfn_event :=
  {| Cfn.fields :=
       list_to_map
         [("RequestType", request_type);
          ("ResponseURL", "https://cloudformation.example.com/callback");
          ("StackId", "stack-1"); ("RequestId", "request-1");
          ("LogicalResourceId", "VectorBucket")];
     Cfn.ResourceProperties := Some properties |}.

Definition sample_context : Cfn.lambda_context :=
  {| Cfn.log_stream_name := "2025/08/13/stream";
     Cfn.remaining_time_in_millis := 30000 |}.

(** A world whose API answers are given per attempt; the serialisation is
    a stand-in that only keeps status and reason. *)
Definition sample_cfn_world (env : gmap string string)
    (answer : nat → Cfn.res unit) : Cfn.cfn_world :=
  {| Cfn.environ := env;
     Cfn.boto3_client := fun _ _ => Cfn.Ok ();
     Cfn.create_vector_bucket := fun n _ => answer n;
     Cfn.delete_vector_bucket := fun n _ => answer n;
     Cfn.delete_index := fun n _ _ => answer n;
     Cfn.json_dumps := fun body => Cfn.Status body ++ ": " ++ Cfn.Reason body;
     Cfn.requests_put := fun _ _ => Cfn.Ok () |}.

Definition bucket_properties : gmap string string :=
  {[ "BucketName" := "transcripts" ]}.

Definition throttled : Cfn.res unit :=
  Cfn.Err (Cfn.BotoClientError (Some "ThrottlingException") "Rate exceeded").

Definition not_found : Cfn.res unit :=
  Cfn.Err (Cfn.BotoClientError (Some "ResourceNotFoundException") "No such resource").

(** Throttled twice, then the given answer. *)
Definition after_two_throttles (last : Cfn.res unit) (n : nat) : Cfn.res unit :=
  if (n <? 2)%nat then throttled else last.

Definition index_environment : gmap string string :=
  {[ "VECTOR_BUCKET" := "vectors"; "INDEX_NAME" := "transcript-index" ]}.

(** * Properties *)

(** ** String operations on samples *)

Example lower_mixed : PyStr.lower "Not Available" = "not available".
Proof. reflexivity. Qed.

Example count_no_overlap : PyStr.count "aaa" "aa" = 1%nat.
Proof. reflexivity. Qed.

Example count_inside_word : PyStr.count "he said ai" "ai" = 2%nat.
Proof. reflexivity. Qed.

Example split_runs :
  PyStr.split "  what  should a ciso " = ["what"; "should"; "a"; "ciso"].
Proof. reflexivity. Qed.

Example split_on_dots : PyStr.split_on "." "A. B. C" = ["A"; " B"; " C"].
Proof. reflexivity. Qed.

Example split_on_trailing :
  PyStr.split_on "." "No summary available." = ["No summary available"; ""].
Proof. reflexivity. Qed.

Example strip_both : PyStr.strip "  a b. " = "a b.".
Proof. reflexivity. Qed.

(** ** Scores as rationals *)

Lemma Qltb_lt (x y : Q) : Qltb x y = true ↔ (x < y)%Q.
Proof.
  unfold Qltb. rewrite negb_true_iff. split.
  - intros H. apply Qnot_le_lt. intros Hle.
    apply Qle_bool_iff in Hle. congruence.
  - intros H. destruct (Qle_bool y x) eqn:E; [|done].
    apply Qle_bool_iff in E. lra.
Qed.

Lemma Qltb_ge (x y : Q) : Qltb x y = false ↔ (y <= x)%Q.
Proof.
  unfold Qltb. rewrite negb_false_iff. apply Qle_bool_iff.
Qed.

Lemma foldl_max_ge (xs : list Q) (m : Q) :
  (m <= foldl (fun m y => if Qltb m y then y else m) m xs)%Q
  ∧ ∀ x, x ∈ xs → (x <= foldl (fun m y => if Qltb m y then y else m) m xs)%Q.
Proof.
  revert m. induction xs as [|y xs IH]; intros m; simpl.
  - split; [lra|]. intros x Hx. inversion Hx.
  - destruct (Qltb m y) eqn:E.
    + apply Qltb_lt in E. destruct (IH y) as [H1 H2]. split; [lra|].
      intros x Hx. apply elem_of_cons in Hx as [->|Hx]; auto.
    + apply Qltb_ge in E. destruct (IH m) as [H1 H2]. split; [done|].
      intros x Hx. apply elem_of_cons in Hx as [->|Hx]; [lra|auto].
Qed.

Lemma py_max_ge (d : Q) (xs : list Q) (x : Q) : x ∈ xs → (x <= py_max d xs)%Q.
Proof.
  destruct xs as [|y xs]; simpl; intros Hx; [inversion Hx|].
  destruct (foldl_max_ge xs y) as [H1 H2].
  apply elem_of_cons in Hx as [->|Hx]; auto.
Qed.

Lemma normalize_le_1 (x mx : Q) : (x <= mx)%Q → (normalize x mx <= 1)%Q.
Proof.
  intros Hle. unfold normalize. destruct (Qltb 0 mx) eqn:E; [|lra].
  apply Qltb_lt in E. apply Qle_shift_div_r; [done|lra].
Qed.

Lemma normalize_zero (x mx : Q) : (x == 0)%Q → (normalize x mx == 0)%Q.
Proof.
  intros Hx. unfold normalize. destruct (Qltb 0 mx); [|reflexivity].
  rewrite Hx. unfold Qdiv. ring.
Qed.

(** ** Persona inference *)

(** C4. The persona is leadership exactly when [leadership_conf] is
    strictly larger, technical exactly when [technical_conf] is strictly
    larger, general exactly when the two are equal; the empty query is
    general. [infer_persona] is a total function into the three personas. *)
Theorem persona_trichotomy (query : string) :
  (infer_persona query = Leadership
   ↔ (technical_conf query < leadership_conf query)%Q)
  ∧ (infer_persona query = Technical
     ↔ (leadership_conf query < technical_conf query)%Q)
  ∧ (infer_persona query = General
     ↔ (leadership_conf query == technical_conf query)%Q)
  ∧ infer_persona "" = General.
Proof.
  unfold infer_persona.
  destruct (Qltb (technical_conf query) (leadership_conf query)) eqn:E1;
    destruct (Qltb (leadership_conf query) (technical_conf query)) eqn:E2;
    try apply Qltb_lt in E1; try apply Qltb_lt in E2;
    try apply Qltb_ge in E1; try apply Qltb_ge in E2;
    repeat split; intros; try discriminate; try lra; done.
Qed.

(** ** Weights *)

(** C8. For each persona the three weights add up to exactly 1, both as
    rationals and in the binary64 arithmetic of the source; the semantic
    weight is 0.8, 0.6 or 0.7 and the keyword weight is
    [1.0 - semantic_weight - 0.05]. *)
Theorem weights_convex (p : persona) :
  (semantic_weight p + keyword_weight p + 0.05 == 1)%Q
  ∧ (keyword_weight p == 1 - semantic_weight p - 0.05)%Q
  ∧ semantic_weight p
    = match p with Leadership => 0.8 | Technical => 0.6 | General => 0.7 end%Q
  ∧ PrimFloat.eqb
      (F64.semantic_weight p + F64.keyword_weight p + F64.metadata_weight) 1
    = true
  ∧ F64.keyword_weight p
    = (1.0 - F64.semantic_weight p - F64.metadata_weight)%float.
Proof.
  destruct p; repeat split; try (vm_compute; reflexivity).
Qed.

(** ** Normalisation *)

(** C7. In any batch, each candidate's normalised keyword and metadata
    score is at most 1, is the raw score over the batch maximum when that
    maximum is positive, and is 0 when every raw score of its kind in the
    batch is 0. *)
Theorem normalized_scores_bounded (cs : list scored) (c : scored) :
  c ∈ cs →
  (norm_kw cs c <= 1)%Q
  ∧ (norm_meta cs c <= 1)%Q
  ∧ ((0 < max_kw cs)%Q → (norm_kw cs c == keyword_score c / max_kw cs)%Q)
  ∧ ((0 < max_meta cs)%Q → (norm_meta cs c == metadata_score c / max_meta cs)%Q)
  ∧ ((∀ d, d ∈ cs → (keyword_score d == 0)%Q) → (norm_kw cs c == 0)%Q)
  ∧ ((∀ d, d ∈ cs → (metadata_score d == 0)%Q) → (norm_meta cs c == 0)%Q).
Proof.
  intros Hc. unfold norm_kw, norm_meta, max_kw, max_meta.
  repeat split.
  - apply normalize_le_1, py_max_ge, list_elem_of_fmap. eauto.
  - apply normalize_le_1, py_max_ge, list_elem_of_fmap. eauto.
  - intros H. unfold normalize. apply Qltb_lt in H. rewrite H. reflexivity.
  - intros H. unfold normalize. apply Qltb_lt in H. rewrite H. reflexivity.
  - intros H. apply normalize_zero. auto.
  - intros H. apply normalize_zero. auto.
Qed.

(** ** Summary truncation *)

Lemma split_on_nonempty (sep : ascii) (s : string) : PyStr.split_on sep s ≠ [].
Proof.
  destruct s as [|c s]; simpl; [done|].
  destruct (Ascii.eqb c sep); [done|].
  destruct (PyStr.split_on sep s); done.
Qed.

(** C9, as documented, fails: the source joins with a period and a space,
    so a summary whose sentences are already separated by a space gets two. *)
Lemma summary_join_differs :
  truncate_summary "First point. Second point. Third."
  = "First point.  Second point."
  ∧ truncate_summary_as_documented "First point. Second point. Third."
    = "First point. Second point."
  ∧ truncate_summary "First point. Second point. Third."
    ≠ truncate_summary_as_documented "First point. Second point. Third.".
Proof. repeat split; vm_compute; congruence. Qed.

(** C9, amended. The summary is split on ['.']; the split always has a
    first segment, so the final period is always added. With one segment
    the result is that segment stripped of surrounding whitespace; with more,
    the first two segments joined with a period and a space, then stripped. *)
Theorem summary_truncation (s : string) :
  ∃ seg rest,
    PyStr.split_on "." s = seg :: rest
    ∧ truncate_summary s
      = PyStr.strip (PyStr.join ". " (take 2 (seg :: rest))) ++ "."
    ∧ (rest = [] → truncate_summary s = PyStr.strip seg ++ ".")
    ∧ (∀ seg2 rest', rest = seg2 :: rest' →
         truncate_summary s = PyStr.strip (seg ++ ". " ++ seg2) ++ ".").
Proof.
  unfold truncate_summary.
  destruct (PyStr.split_on "." s) as [|seg rest] eqn:E.
  - by apply split_on_nonempty in E.
  - exists seg, rest. repeat split.
    + intros ->. reflexivity.
    + intros seg2 rest' ->. reflexivity.
Qed.

(** ** Running the tool against a world *)

Ltac unfold_tool :=
  unfold run_tool, search_transcripts, create_clients, pipeline, retry,
    try_except, s3vectors_query_vectors, bedrock_invoke_model, session_client,
    call, lift, mbind, mret, M_bind, M_ret, bind, ret, outcome_bind, obind in *;
  cbv zeta in *.

Ltac reduce_vectors := cbn [vectors_of default from_option id fst snd] in *.

Lemma tool_client_error (w : world) (query msg : string) :
  clients_outcome w = Raised (ClientError msg) →
  (run_tool w query).1 = Returned (message_only ("ClientError: " ++ msg))
  ∧ query_topKs (run_tool w query).2 = [].
Proof.
  unfold clients_outcome. unfold_tool. intros H.
  destruct (create_client w "bedrock-runtime") as [[]|[]];
    [destruct (create_client w "s3vectors") as [[]|[]]|..];
    simplify_eq; done.
Qed.

Lemma tool_client_escape (w : world) (query msg : string) :
  clients_outcome w = Raised (OtherException msg) →
  (run_tool w query).1 = Raised (OtherException msg).
Proof.
  unfold clients_outcome. unfold_tool. intros H.
  destruct (create_client w "bedrock-runtime") as [[]|[]];
    [destruct (create_client w "s3vectors") as [[]|[]]|..];
    simplify_eq; done.
Qed.

Lemma tool_reaches_output (w : world) (query : string) (valid : list result_entry) :
  surviving w query = Some valid →
  (run_tool w query).1 = handled (prepare_output valid).
Proof.
  unfold surviving, first_pass, clients_outcome. unfold_tool. intros H.
  destruct (create_client w "bedrock-runtime") as [[]|]; [|done].
  destruct (create_client w "s3vectors") as [[]|]; [|done].
  destruct (invoke_model w query) as [[emb|]|]; [|done..].
  destruct (query_vectors w {| queryVector := emb; topK := 10 |})
    as [[[|v vs]|]|]; [done| |done..].
  reduce_vectors.
  destruct (run_pass _ _ (v :: vs)) as [valid1|]; [|done].
  destruct (length valid1 <? 2)%nat.
  - destruct (query_vectors w {| queryVector := emb; topK := 15 |})
      as [[[|v' vs']|]|]; reduce_vectors; [| |..|done].
    + injection H as <-. simpl. by destruct (prepare_output valid1).
    + destruct (run_pass _ _ (v' :: vs')); [|done].
      injection H as <-. simpl. by destruct (prepare_output _).
    + injection H as <-. simpl. by destruct (prepare_output valid1).
  - injection H as <-. simpl. by destruct (prepare_output valid1).
Qed.

Lemma tool_aborts (w : world) (query : string) :
  clients_outcome w = Returned () →
  surviving w query = None →
  ∃ msg, (run_tool w query).1 = Returned (message_only msg).
Proof.
  unfold surviving, first_pass. intros Hc. rewrite Hc.
  revert Hc. unfold clients_outcome. unfold_tool. intros Hc H.
  destruct (create_client w "bedrock-runtime") as [[]|]; [|done].
  destruct (create_client w "s3vectors") as [[]|]; [|done].
  destruct (invoke_model w query) as [[emb|]|[]]; simpl; eauto.
  destruct (query_vectors w {| queryVector := emb; topK := 10 |})
    as [[[|v vs]|]|[]]; reduce_vectors; simpl; eauto.
  destruct (run_pass _ _ (v :: vs)) as [valid1|[]]; simpl; eauto.
  destruct (length valid1 <? 2)%nat; [|done].
  destruct (query_vectors w {| queryVector := emb; topK := 15 |})
    as [[[|v' vs']|]|[]]; reduce_vectors; simpl; eauto; try done.
  destruct (run_pass _ _ (v' :: vs')) as [|[]]; simpl; eauto; done.
Qed.

Lemma tool_queries_first_pass (w : world) (query : string)
    (emb : list Q) (valid : list result_entry) :
  first_pass w query = Some (emb, valid) →
  query_topKs (run_tool w query).2
  = if (length valid <? 2)%nat then [10; 15] else [10].
Proof.
  unfold first_pass, clients_outcome. unfold_tool. intros H.
  destruct (create_client w "bedrock-runtime") as [[]|]; [|done].
  destruct (create_client w "s3vectors") as [[]|]; [|done].
  destruct (invoke_model w query) as [[emb'|]|]; [|done..].
  destruct (query_vectors w {| queryVector := emb'; topK := 10 |})
    as [[[|v vs]|]|]; [done| |done..].
  reduce_vectors.
  destruct (run_pass _ _ (v :: vs)) as [valid1|]; [|done].
  injection H as <- <-.
  destruct (length valid1 <? 2)%nat; [|simpl; by destruct (prepare_output _)].
  destruct (query_vectors w {| queryVector := emb'; topK := 15 |})
    as [[[|v' vs']|]|]; reduce_vectors; simpl; try done;
    try by destruct (prepare_output _).
  destruct (run_pass _ _ (v' :: vs')); simpl; [|done].
  by destruct (prepare_output _).
Qed.

Lemma tool_queries_no_first_pass (w : world) (query : string) :
  first_pass w query = None →
  query_topKs (run_tool w query).2 = []
  ∨ query_topKs (run_tool w query).2 = [10].
Proof.
  unfold first_pass, clients_outcome. unfold_tool. intros H.
  destruct (create_client w "bedrock-runtime") as [[]|[]]; simpl; auto.
  destruct (create_client w "s3vectors") as [[]|[]]; simpl; auto.
  destruct (invoke_model w query) as [[emb'|]|]; simpl; auto.
  destruct (query_vectors w {| queryVector := emb'; topK := 10 |})
    as [[[|v vs]|]|]; reduce_vectors; simpl; auto.
  destruct (run_pass _ _ (v :: vs)) as [valid1|]; [done|]. simpl. auto.
Qed.

Lemma prepare_output_enough (valid : list result_entry) :
  (2 ≤ length valid)%nat →
  ∃ r1 r2 rest,
    valid = r1 :: r2 :: rest
    ∧ prepare_output valid
      = Returned {| message := None;
                    results := Some [strip_summary r1; strip_summary r2];
                    final_recommendation := Some (recommendation_text r1 r2) |}.
Proof.
  intros Hlen. destruct valid as [|r1 [|r2 rest]]; simpl in Hlen; [lia..|].
  exists r1, r2, rest. split; [done|]. reflexivity.
Qed.

Lemma prepare_output_short (valid : list result_entry) :
  (length valid < 2)%nat →
  prepare_output valid
  = Returned
      {| message :=
           Some ("ERROR: Found only " ++ pretty (length valid)
                 ++ " video(s) with valid links; at least 2 required");
         results := Some valid;
         final_recommendation := Some insufficient_recommendation |}.
Proof.
  intros Hlen. unfold prepare_output.
  by destruct (Nat.ltb_spec (length valid) 2); [|lia].
Qed.

(** ** The retry *)

(** C5. The vector index is queried at most twice: first with [topK = 10]
    and, only as a retry, with [topK = 15]. The retry happens exactly when
    the first pass delivers fewer than two valid results; whatever the retry
    delivers, no third query follows. *)
Theorem single_retry (w : world) (query : string) :
  (query_topKs (run_tool w query).2 = []
   ∨ query_topKs (run_tool w query).2 = [10]
   ∨ query_topKs (run_tool w query).2 = [10; 15])
  ∧ (query_topKs (run_tool w query).2 = [10; 15]
     ↔ ∃ emb valid,
         first_pass w query = Some (emb, valid) ∧ (length valid < 2)%nat).
Proof.
  destruct (first_pass w query) as [[emb valid]|] eqn:E.
  - rewrite (tool_queries_first_pass _ _ _ _ E).
    destruct (Nat.ltb_spec (length valid) 2) as [Hlt|Hge].
    + split; [auto|]. split; [eauto|done].
    + split; [auto|]. split; [done|].
      intros (emb' & valid' & [= <- <-] & Hlt). lia.
  - destruct (tool_queries_no_first_pass _ _ E) as [-> | ->].
    + split; [auto|]. split; [done|]. by intros (? & ? & ? & ?).
    + split; [auto|]. split; [done|]. by intros (? & ? & ? & ?).
Qed.

(** C10. When the retry is made and its response has no vectors, the
    valid results of the first pass are kept and the tool returns the
    insufficient-results envelope with them, not the
    [NO_RELEVANT_OUTPUT] message. *)
Theorem empty_retry_keeps_first_pass (w : world) (query : string)
    (emb : list Q) (valid : list result_entry)
    (response : option (list vector_result)) :
  first_pass w query = Some (emb, valid) →
  (length valid < 2)%nat →
  query_vectors w {| queryVector := emb; topK := 15 |} = Returned response →
  vectors_of response = [] →
  ∃ env,
    (run_tool w query).1 = Returned env
    ∧ message env
      = Some ("ERROR: Found only " ++ pretty (length valid)
              ++ " video(s) with valid links; at least 2 required")
    ∧ message env ≠ Some "NO_RELEVANT_OUTPUT"
    ∧ results env = Some valid
    ∧ final_recommendation env = Some insufficient_recommendation
    ∧ query_topKs (run_tool w query).2 = [10; 15].
Proof.
  intros Hfirst Hlen Hretry Hempty.
  assert (Hs : surviving w query = Some valid).
  { unfold surviving. rewrite Hfirst, Hretry.
    destruct (Nat.ltb_spec (length valid) 2); [|lia].
    destruct response as [[|? ?]|]; done. }
  eexists. split.
  { rewrite (tool_reaches_output _ _ _ Hs), prepare_output_short by done.
    reflexivity. }
  simpl. repeat split; try done.
  rewrite (tool_queries_first_pass _ _ _ _ Hfirst).
  by destruct (Nat.ltb_spec (length valid) 2); [|lia].
Qed.

(** The first pass is different: no vectors there gives the sentinel. *)
Example empty_first_pass_is_sentinel :
  run_tool empty_index_world ciso_query
  = (Returned (message_only "NO_RELEVANT_OUTPUT"),
     [CreateClient "bedrock-runtime"; CreateClient "s3vectors";
      InvokeModel ciso_query;
      QueryVectors {| queryVector := [0.25%Q; 0.5%Q]; topK := 10 |}]).
Proof. reflexivity. Qed.

(** ** From the index response to the valid results *)

Lemma omapM_Forall2 {A B} (f : A → outcome B) (l : list A) (ys : list B) :
  omapM f l = Returned ys → Forall2 (fun x y => f x = Returned y) l ys.
Proof.
  revert ys. induction l as [|x l IH]; intros ys; simpl.
  - intros [= <-]. constructor.
  - unfold obind. destruct (f x) as [y|] eqn:Ey; [|done].
    destruct (omapM f l) as [ys'|]; [|done].
    intros [= <-]. constructor; auto.
Qed.

Lemma score_result_source (p : persona) (kws : list string)
    (v : vector_result) (c : scored) :
  score_result p kws v = Returned c →
  vr_key v = Some (doc_id c) ∧ metadata c = default ∅ (vr_metadata v).
Proof.
  unfold score_result. destruct (vr_key v); [|done].
  intros [= <-]. done.
Qed.

Lemma score_batch_source (p : persona) (kws : list string)
    (vs : list vector_result) (cs : list candidate) (c : candidate) :
  score_batch p kws vs = Returned cs → c ∈ cs →
  ∃ v, v ∈ vs ∧ vr_key v = Some (doc_id (base c))
       ∧ metadata (base c) = default ∅ (vr_metadata v).
Proof.
  unfold score_batch, mbind, outcome_bind, obind, mret, outcome_ret.
  destruct (omapM _ vs) as [ss|] eqn:E; [|done].
  intros [= <-] Hc. apply omapM_Forall2 in E.
  unfold blend in Hc. apply list_elem_of_fmap in Hc as (s & -> & Hs).
  simpl. apply list_elem_of_lookup in Hs as [i Hi].
  destruct (Forall2_lookup_r _ _ _ _ _ E Hi) as (v & Hv & Hscore).
  exists v. split; [by eapply list_elem_of_lookup_2|].
  by apply score_result_source in Hscore.
Qed.

Lemma elem_of_insert_desc (x y : candidate) (l : list candidate) :
  y ∈ insert_desc x l ↔ y = x ∨ y ∈ l.
Proof.
  induction l as [|z l IH]; simpl.
  - rewrite list_elem_of_singleton, elem_of_nil. tauto.
  - destruct (Qltb _ _).
    + rewrite !elem_of_cons, IH. tauto.
    + by rewrite elem_of_cons.
Qed.

Lemma elem_of_sort_desc (y : candidate) (l : list candidate) :
  y ∈ sort_desc l ↔ y ∈ l.
Proof.
  unfold sort_desc. induction l as [|x l IH]; simpl; [done|].
  by rewrite elem_of_insert_desc, elem_of_cons, IH.
Qed.

Lemma length_insert_desc (x : candidate) (l : list candidate) :
  length (insert_desc x l) = S (length l).
Proof.
  induction l as [|z l IH]; simpl; [done|].
  destruct (Qltb _ _); simpl; by rewrite ?IH.
Qed.

Lemma length_sort_desc (l : list candidate) : length (sort_desc l) = length l.
Proof.
  unfold sort_desc. induction l as [|x l IH]; simpl; [done|].
  by rewrite length_insert_desc, IH.
Qed.

Lemma elem_of_leadership_candidates (c : candidate) (cs : list candidate) :
  c ∈ leadership_candidates cs ↔ c ∈ cs ∧ leans_leadership c = true.
Proof.
  unfold leadership_candidates. rewrite list_elem_of_In, filter_In.
  by rewrite list_elem_of_In.
Qed.

Lemma elem_of_technical_candidates (c : candidate) (cs : list candidate) :
  c ∈ technical_candidates cs → c ∈ cs.
Proof.
  unfold technical_candidates. rewrite !list_elem_of_In, filter_In. tauto.
Qed.

Lemma select_top_docs_subset (p : persona) (cs : list candidate) (c : candidate) :
  c ∈ select_top_docs p cs → c ∈ cs.
Proof.
  assert (Hsorted : ∀ n l, c ∈ take n (sort_desc l) → c ∈ l).
  { intros n l H. apply elem_of_sort_desc. by eapply subseteq_take. }
  unfold select_top_docs.
  destruct p; try apply Hsorted.
  destruct (leadership_candidates cs) as [|l0 ls] eqn:El; [apply Hsorted|].
  assert (Hlead : c ∈ take 2 (sort_desc (l0 :: ls)) → c ∈ cs).
  { intros H. apply Hsorted in H. rewrite <- El in H.
    by apply elem_of_leadership_candidates in H as [? _]. }
  destruct (length _ <? 2)%nat; [|done].
  destruct (sort_desc (technical_candidates cs)) as [|t ts] eqn:Et; [done|].
  intros [H| ->%list_elem_of_singleton]%elem_of_app; [auto|].
  apply elem_of_technical_candidates, elem_of_sort_desc.
  rewrite Et. by left.
Qed.

Lemma elem_of_collect_valid_results (r : result_entry) (docs : list candidate) :
  r ∈ collect_valid_results docs
  ↔ ∃ doc, doc ∈ docs
      ∧ extract_links (metadata (base doc)) ≠ ∅
      ∧ r = {| r_doc_id := doc_id (base doc);
               r_links := extract_links (metadata (base doc));
               r_hybrid_score := hybrid_score doc;
               r_summary := Some (summary (base doc)) |}.
Proof.
  unfold collect_valid_results.
  rewrite list_elem_of_In, in_flat_map. split.
  - intros (doc & Hdoc & Hr). exists doc.
    rewrite list_elem_of_In. split; [done|].
    case_bool_decide; [by destruct Hr|].
    destruct Hr as [<-|[]]. done.
  - intros (doc & Hdoc & Hne & ->). exists doc.
    rewrite <- list_elem_of_In. split; [done|].
    case_bool_decide; [done|]. by left.
Qed.

Lemma run_pass_source (p : persona) (kws : list string)
    (vs : list vector_result) (valid : list result_entry) (r : result_entry) :
  run_pass p kws vs = Returned valid → r ∈ valid →
  ∃ v, v ∈ vs ∧ vr_key v = Some (r_doc_id r)
       ∧ r_links r = extract_links (default ∅ (vr_metadata v))
       ∧ r_links r ≠ ∅.
Proof.
  unfold run_pass, mbind, outcome_bind, obind, mret, outcome_ret.
  destruct (score_batch p kws vs) as [cs|] eqn:E; [|done].
  intros [= <-] Hr.
  apply elem_of_collect_valid_results in Hr as (doc & Hdoc & Hne & ->).
  apply select_top_docs_subset in Hdoc.
  destruct (score_batch_source _ _ _ _ _ E Hdoc) as (v & Hv & Hkey & Hmd).
  exists v. simpl. rewrite <- Hmd. done.
Qed.

(** ** Link filter *)

Lemma lower_empty (s : string) : PyStr.lower s = "" ↔ s = "".
Proof. by destruct s. Qed.

Lemma usable_spec (u : string) :
  usable u = true ↔ u ≠ "" ∧ PyStr.lower u ≠ "not available".
Proof.
  unfold usable. simpl. rewrite andb_true_iff, !negb_true_iff, !orb_false_iff.
  rewrite !String.eqb_neq, lower_empty. tauto.
Qed.

Lemma usable_lookup (md : gmap string string) (field : string) :
  usable (default "" (md !! field)) = true →
  md !! field = Some (default "" (md !! field)).
Proof. by destruct (md !! field). Qed.

Lemma unusable_field_spec (md : gmap string string) (field : string) :
  unusable_field md field ↔ usable (default "" (md !! field)) = false.
Proof.
  unfold unusable_field. rewrite <- not_true_iff_false, usable_spec.
  destruct (md !! field) as [u|]; simpl; [|by intuition].
  destruct (decide (u = "")), (decide (PyStr.lower u = "not available")); tauto.
Qed.

Section LinkFold.
Variable md : gmap string string.

Let step (links : gmap string string) (kf : string * string) : gmap string string :=
  let value := default "" (md !! kf.2) in
  if usable value then <[kf.1 := value]> links else links.

Lemma link_fold_lookup (fields : list (string * string))
    (acc : gmap string string) (k u : string) :
  NoDup fields.*1 →
  foldl step acc fields !! k = Some u
  ↔ (∃ field, (k, field) ∈ fields ∧ md !! field = Some u ∧ usable u = true)
    ∨ (acc !! k = Some u
       ∧ ∀ field, (k, field) ∈ fields → usable (default "" (md !! field)) = false).
Proof.
  revert acc. induction fields as [|[k0 f0] rest IH]; intros acc Hnd; simpl.
  - split; [intros H; right; split; [done|]|].
    + intros field Hin. inversion Hin.
    + intros [(field & Hin & _)|[H _]]; [inversion Hin|done].
  - rewrite fmap_cons in Hnd. apply NoDup_cons in Hnd as [Hk0 Hnd].
    rewrite (IH _ Hnd). clear IH. unfold step at 1. simpl in *.
    destruct (usable (default "" (md !! f0))) eqn:Eu.
    + pose proof (usable_lookup _ _ Eu) as Hf0. split.
      * intros [(field & Hin & Hmd & Hu)|[Hacc Hrest]].
        { left. exists field. rewrite elem_of_cons. auto. }
        apply lookup_insert_Some in Hacc as [[<- <-]|[Hne Hacc]].
        { left. exists f0. rewrite elem_of_cons. auto. }
        right. split; [done|]. intros field [[=]|Hin]%elem_of_cons; [done|auto].
      * intros [(field & [[= -> ->]|Hin]%elem_of_cons & Hmd & Hu)|[Hacc Hall]].
        { right. rewrite Hmd in *. simpl in *. rewrite lookup_insert_eq.
          split; [done|]. intros field Hin. destruct Hk0.
          apply list_elem_of_fmap. by exists (k0, field). }
        { left. eauto. }
        destruct (decide (k = k0)) as [->|Hne].
        { rewrite Hall in Eu; [done|]. by left. }
        right. rewrite lookup_insert_ne by done. split; [done|].
        intros field Hin. apply Hall. by right.
    + split.
      * intros [(field & Hin & Hmd & Hu)|[Hacc Hrest]].
        { left. exists field. rewrite elem_of_cons. auto. }
        right. split; [done|]. intros field [[= -> ->]|Hin]%elem_of_cons; auto.
      * intros [(field & [[= -> ->]|Hin]%elem_of_cons & Hmd & Hu)|[Hacc Hall]].
        { rewrite Hmd in Eu. simpl in Eu. congruence. }
        { left. eauto. }
        right. split; [done|]. intros field Hin. apply Hall. by right.
Qed.

End LinkFold.

Lemma extract_links_lookup (md : gmap string string) (k u : string) :
  extract_links md !! k = Some u
  ↔ ∃ field, (k, field) ∈ link_fields
      ∧ md !! field = Some u ∧ u ≠ "" ∧ PyStr.lower u ≠ "not available".
Proof.
  unfold extract_links. rewrite link_fold_lookup.
  - rewrite lookup_empty. setoid_rewrite usable_spec. split.
    + intros [H|[? _]]; [|done]. done.
    + intros H. by left.
  - by apply (bool_decide_unpack _).
Qed.

Lemma extract_links_empty (md : gmap string string) :
  extract_links md = ∅ ↔ no_usable_link md.
Proof.
  unfold no_usable_link. setoid_rewrite unusable_field_spec. split.
  - intros Hempty k field Hin.
    destruct (usable (default "" (md !! field))) eqn:Eu; [|done].
    assert (extract_links md !! k = Some (default "" (md !! field))) as H.
    { apply extract_links_lookup. exists field.
      apply usable_spec in Eu as Hu. split_and!; try tauto.
      by apply usable_lookup. }
    by rewrite Hempty in H.
  - intros Hall. apply map_eq. intros k. rewrite lookup_empty.
    destruct (extract_links md !! k) as [u|] eqn:E; [|done].
    apply extract_links_lookup in E as (field & Hin & Hmd & Hu).
    apply Hall in Hin. rewrite Hmd in Hin. simpl in Hin.
    apply usable_spec in Hu. congruence.
Qed.

(** ** The envelope *)

Lemma surviving_source (w : world) (query : string) (valid : list result_entry) :
  surviving w query = Some valid →
  ∃ q vs, query_vectors w q = Returned (Some vs)
    ∧ run_pass (infer_persona query) (all_keywords (PyStr.lower query)) vs
      = Returned valid.
Proof.
  unfold surviving, first_pass.
  destruct (clients_outcome w); [|done].
  destruct (invoke_model w query) as [[emb|]|]; [|done..].
  destruct (query_vectors w {| queryVector := emb; topK := 10 |})
    as [[[|v vs]|]|] eqn:E10; [done| |done..].
  destruct (run_pass _ _ (v :: vs)) as [valid1|] eqn:E1; [|done].
  destruct (length valid1 <? 2)%nat; [|intros [= <-]; eauto].
  destruct (query_vectors w {| queryVector := emb; topK := 15 |})
    as [[[|v' vs']|]|] eqn:E15; try (intros [= <-]; by eauto).
  destruct (run_pass _ _ (v' :: vs')) eqn:E2; [|done].
  intros [= <-]. eauto.
Qed.

Lemma surviving_link_bearing (w : world) (query : string)
    (valid : list result_entry) (r : result_entry) :
  surviving w query = Some valid → r ∈ valid → r_links r ≠ ∅.
Proof.
  intros (q & vs & _ & Hpass)%surviving_source Hr.
  by destruct (run_pass_source _ _ _ _ _ Hpass Hr) as (v & _ & _ & _ & Hne).
Qed.

(** Every envelope the tool returns has one of three shapes. *)
Lemma tool_envelope_cases (w : world) (query : string) (env : envelope) :
  (run_tool w query).1 = Returned env →
  (surviving w query = None ∧ ∃ msg, env = message_only msg)
  ∨ (∃ valid,
       surviving w query = Some valid ∧ (length valid < 2)%nat
       ∧ env = {| message :=
                    Some ("ERROR: Found only " ++ pretty (length valid)
                          ++ " video(s) with valid links; at least 2 required");
                  results := Some valid;
                  final_recommendation := Some insufficient_recommendation |})
  ∨ (∃ r1 r2 rest,
       surviving w query = Some (r1 :: r2 :: rest)
       ∧ env = {| message := None;
                  results := Some [strip_summary r1; strip_summary r2];
                  final_recommendation := Some (recommendation_text r1 r2) |}).
Proof.
  intros Hrun.
  destruct (surviving w query) as [valid|] eqn:Es.
  - rewrite (tool_reaches_output _ _ _ Es) in Hrun.
    destruct (Nat.ltb_spec (length valid) 2) as [Hlt|Hge].
    + rewrite prepare_output_short in Hrun by done.
      injection Hrun as <-. right. left. eauto.
    + destruct (prepare_output_enough _ Hge) as (r1 & r2 & rest & -> & Hout).
      rewrite Hout in Hrun. injection Hrun as <-. right. right. eauto 10.
  - left. split; [done|].
    destruct (clients_outcome w) as [[]|[msg|msg]] eqn:Ec.
    + destruct (tool_aborts _ query Ec Es) as [msg Hmsg].
      rewrite Hmsg in Hrun. injection Hrun as <-. eauto.
    + destruct (tool_client_error _ query _ Ec) as [Hmsg _].
      rewrite Hmsg in Hrun. injection Hrun as <-. eauto.
    + rewrite (tool_client_escape _ query _ Ec) in Hrun. done.
Qed.

Lemma tool_returns (w : world) (query : string) :
  (∀ msg, clients_outcome w ≠ Raised (OtherException msg)) →
  ∃ env, (run_tool w query).1 = Returned env.
Proof.
  intros Hc. destruct (surviving w query) as [valid|] eqn:Es.
  - rewrite (tool_reaches_output _ _ _ Es).
    destruct (prepare_output valid); simpl; eauto.
  - destruct (clients_outcome w) as [[]|[msg|msg]] eqn:Ec.
    + destruct (tool_aborts _ query Ec Es) as [msg Hmsg]. eauto.
    + destruct (tool_client_error _ query _ Ec) as [Hmsg _]. eauto.
    + by destruct (Hc msg).
Qed.

(** C1, as documented, fails: when the index has no vectors for the first
    query, fewer than two candidates survive, and the envelope returned has
    the message only, with no results list and no recommendation text. *)
Lemma floor_fails_on_empty_index :
  (run_tool empty_index_world ciso_query).1
  = Returned (message_only "NO_RELEVANT_OUTPUT")
  ∧ ¬ floor_as_documented empty_index_world ciso_query.
Proof.
  split; [reflexivity|].
  intros (env & Hrun & _ & Hfail).
  injection Hrun as <-.
  destruct Hfail as (_ & _ & Hrec).
  - by intros [? _].
  - done.
Qed.

(** C1, amended. Unless client construction raises something other than
    a [ClientError], the tool returns an envelope. It is a success envelope
    exactly when the run reaches the output step with at least two
    link-bearing candidates left after at most one retry, and then it holds
    exactly the first two of them. When the output step is reached with
    fewer than two, the envelope has a message, exactly those candidates as
    results, and the fixed recommendation text. When the run stops before
    the output step, the envelope has a message only. *)
Theorem output_floor (w : world) (query : string) :
  (∀ msg, clients_outcome w ≠ Raised (OtherException msg)) →
  ∃ env,
    (run_tool w query).1 = Returned env
    ∧ (is_success env
       ↔ ∃ valid, surviving w query = Some valid ∧ (2 ≤ length valid)%nat)
    ∧ (is_success env → ∃ r1 r2, results env = Some [r1; r2])
    ∧ (∀ valid, surviving w query = Some valid →
         Forall (fun r => r_links r ≠ ∅) valid
         ∧ ((length valid < 2)%nat →
            is_Some (message env)
            ∧ results env = Some valid
            ∧ final_recommendation env = Some insufficient_recommendation)
         ∧ ((2 ≤ length valid)%nat →
            results env = Some (strip_summary <$> take 2 valid)))
    ∧ (surviving w query = None → ∃ msg, env = message_only msg).
Proof.
  intros Hc. destruct (tool_returns _ query Hc) as [env Hrun].
  exists env. split; [done|].
  destruct (tool_envelope_cases _ _ _ Hrun)
    as [[Es [msg ->]]|[(valid & Es & Hlt & ->)|(r1 & r2 & rest & Es & ->)]];
    rewrite Es; unfold is_success; simpl.
  - split_and!; try done.
    + split; [by intros [? _]|]. by intros (? & ? & _).
    + by intros [? _].
    + eauto.
  - split_and!; try done.
    + split; [by intros [? _]|]. intros (? & [= <-] & ?). lia.
    + by intros [? _].
    + intros ? [= <-]. split_and!; [|eauto|intros; lia].
      apply Forall_forall. intros r Hr.
      by eapply surviving_link_bearing.
  - split_and!; try done.
    + split; [|by eauto]. intros _. eexists. split; [done|]. simpl. lia.
    + eauto.
    + intros ? [= <-]. split_and!; [|simpl; intros; lia|done].
      apply Forall_forall. intros r Hr.
      by eapply surviving_link_bearing.
Qed.

(** C6. Every entry of the returned results comes from a vector of an
    index response with the same key; that vector's four link fields are
    not all absent, empty or the placeholder, and the entry's links are
    exactly the fields that are present, non-empty and not the placeholder
    (compared without regard to case). So a candidate with no usable link
    field is never among the results. *)
Theorem link_filter (w : world) (query : string) (env : envelope)
    (rs : list result_entry) (r : result_entry) :
  (run_tool w query).1 = Returned env →
  results env = Some rs →
  r ∈ rs →
  ∃ q vs v,
    query_vectors w q = Returned (Some vs)
    ∧ v ∈ vs
    ∧ vr_key v = Some (r_doc_id r)
    ∧ ¬ no_usable_link (default ∅ (vr_metadata v))
    ∧ ∀ k u,
        r_links r !! k = Some u
        ↔ ∃ field, (k, field) ∈ link_fields
            ∧ default ∅ (vr_metadata v) !! field = Some u
            ∧ u ≠ "" ∧ PyStr.lower u ≠ "not available".
Proof.
  intros Hrun Hrs Hr.
  assert (∃ valid r', surviving w query = Some valid ∧ r' ∈ valid
            ∧ r_doc_id r = r_doc_id r' ∧ r_links r = r_links r')
    as (valid & r' & Es & Hr' & Hid & Hlinks).
  { destruct (tool_envelope_cases _ _ _ Hrun)
      as [[_ [msg ->]]|[(valid & Es & _ & ->)|(r1 & r2 & rest & Es & ->)]];
      simpl in Hrs; [done|..]; injection Hrs as <-.
    - eauto 10.
    - exists (r1 :: r2 :: rest).
      apply elem_of_cons in Hr as [->|Hr];
        [|apply list_elem_of_singleton in Hr as ->].
      + exists r1. split_and!; try done. by left.
      + exists r2. split_and!; try done. right. by left. }
  apply surviving_source in Es as (q & vs & Hq & Hpass).
  destruct (run_pass_source _ _ _ _ _ Hpass Hr') as (v & Hv & Hkey & Hl & Hne).
  exists q, vs, v. rewrite Hid, Hlinks, Hl. split_and!; try done.
  - rewrite <- extract_links_empty. congruence.
  - intros k u. apply extract_links_lookup.
Qed.

(** ** Order of the results *)

Lemma insert_desc_descending (x : candidate) (l : list candidate) :
  descending hybrid_score l → descending hybrid_score (insert_desc x l).
Proof.
  unfold descending. induction l as [|y l IH]; simpl; intros Hl.
  - repeat constructor.
  - apply StronglySorted_cons in Hl as [Hy Hl].
    destruct (Qltb (hybrid_score x) (hybrid_score y)) eqn:E.
    + apply Qltb_lt in E. apply StronglySorted_cons. split; [|auto].
      apply Forall_forall. intros z [->|Hz]%elem_of_insert_desc; [lra|].
      by eapply Forall_forall in Hy.
    + apply Qltb_ge in E. apply StronglySorted_cons. split.
      * constructor; [done|]. eapply Forall_impl; [done|].
        simpl. intros z Hz. lra.
      * by apply StronglySorted_cons.
Qed.

Lemma sort_desc_descending (l : list candidate) :
  descending hybrid_score (sort_desc l).
Proof.
  unfold sort_desc. induction l as [|x l IH]; simpl.
  - constructor.
  - by apply insert_desc_descending.
Qed.

Lemma take_descending {A} (key : A → Q) (n : nat) (l : list A) :
  descending key l → descending key (take n l).
Proof.
  unfold descending. intros Hl. rewrite <- (take_drop n l) in Hl.
  by apply StronglySorted_app_1_l in Hl.
Qed.

Lemma collect_descending (docs : list candidate) :
  descending hybrid_score docs →
  descending r_hybrid_score (collect_valid_results docs).
Proof.
  unfold descending. induction docs as [|d docs IH]; intros Hd.
  - constructor.
  - apply StronglySorted_cons in Hd as [Hall Hd].
    change (collect_valid_results (d :: docs))
      with ((if bool_decide (extract_links (metadata (base d)) = ∅) then []
             else [{| r_doc_id := doc_id (base d);
                      r_links := extract_links (metadata (base d));
                      r_hybrid_score := hybrid_score d;
                      r_summary := Some (summary (base d)) |}])
            ++ collect_valid_results docs)%list.
    destruct (bool_decide _); simpl; [auto|].
    apply StronglySorted_cons. split; [|auto].
    apply Forall_forall. intros r Hr.
    apply elem_of_collect_valid_results in Hr as (doc & Hdoc & _ & ->).
    simpl. by eapply Forall_forall in Hall.
Qed.

Lemma sorted_prefix_order (n : nat) (l : list candidate)
    (r1 r2 : result_entry) (rest : list result_entry) :
  collect_valid_results (take n (sort_desc l)) = r1 :: r2 :: rest →
  (r_hybrid_score r2 <= r_hybrid_score r1)%Q.
Proof.
  intros E.
  pose proof (collect_descending _
    (take_descending _ n _ (sort_desc_descending l))) as Hs.
  rewrite E in Hs. apply StronglySorted_cons in Hs as [Hall _].
  by apply Forall_cons in Hall as [? _].
Qed.

Lemma candidate_eqb_refl (c : candidate) : candidate_eqb c c = true.
Proof.
  unfold candidate_eqb.
  rewrite !String.eqb_refl, !bool_decide_eq_true_2 by done.
  assert (∀ x, Qeq_bool x x = true) as Hq.
  { intros x. apply Qeq_bool_iff. reflexivity. }
  by rewrite !Hq.
Qed.

Lemma py_in_elem (c : candidate) (l : list candidate) : c ∈ l → py_in c l = true.
Proof.
  intros Hc. unfold py_in. apply existsb_exists. exists c.
  split; [by apply list_elem_of_In|apply candidate_eqb_refl].
Qed.

(** A technical-leaning candidate is one that fails the leadership test. *)
Lemma technical_candidates_lean (c : candidate) (cs : list candidate) :
  c ∈ technical_candidates cs → c ∈ cs ∧ leans_leadership c = false.
Proof.
  unfold technical_candidates. rewrite list_elem_of_In, filter_In.
  rewrite <- list_elem_of_In, negb_true_iff. intros [Hc Hin].
  split; [done|]. destruct (leans_leadership c) eqn:E; [|done].
  rewrite py_in_elem in Hin; [done|].
  by apply elem_of_leadership_candidates.
Qed.

Lemma collect_single (d : candidate) :
  (length (collect_valid_results [d]) ≤ 1)%nat.
Proof.
  unfold collect_valid_results. simpl. destruct (bool_decide _); simpl; lia.
Qed.

Lemma collect_pair (d t : candidate) (r1 r2 : result_entry)
    (rest : list result_entry) :
  collect_valid_results [d; t] = r1 :: r2 :: rest →
  r_doc_id r1 = doc_id (base d) ∧ r_doc_id r2 = doc_id (base t)
  ∧ r_hybrid_score r1 = hybrid_score d ∧ r_hybrid_score r2 = hybrid_score t
  ∧ rest = [].
Proof.
  unfold collect_valid_results. simpl.
  do 2 destruct (bool_decide _); simpl; intros [= <- <- <-] || intros [=]; done.
Qed.

(** The first two valid results of a pass are in descending order, unless
    the slate is the single leadership-leaning candidate followed by the
    technical-leaning backfill. *)
Lemma slate_order (p : persona) (cs : list candidate)
    (r1 r2 : result_entry) (rest : list result_entry) :
  collect_valid_results (select_top_docs p cs) = r1 :: r2 :: rest →
  (r_hybrid_score r2 <= r_hybrid_score r1)%Q
  ∨ (p = Leadership
     ∧ ∃ lead t,
         leadership_candidates cs = [lead]
         ∧ t ∈ technical_candidates cs
         ∧ (∀ t', t' ∈ technical_candidates cs →
              (hybrid_score t' <= hybrid_score t)%Q)
         ∧ leans_leadership lead = true ∧ leans_leadership t = false
         ∧ r_doc_id r1 = doc_id (base lead) ∧ r_hybrid_score r1 = hybrid_score lead
         ∧ r_doc_id r2 = doc_id (base t) ∧ r_hybrid_score r2 = hybrid_score t).
Proof.
  unfold select_top_docs.
  destruct p; try (intros E; left; by eapply sorted_prefix_order).
  destruct (leadership_candidates cs) as [|l0 ls] eqn:El;
    [intros E; left; by eapply sorted_prefix_order|].
  destruct (Nat.ltb_spec (length (take 2 (sort_desc (l0 :: ls)))) 2)
    as [Hlt|Hge]; [|intros E; left; by eapply sorted_prefix_order].
  rewrite length_take, length_sort_desc in Hlt. simpl in Hlt.
  destruct ls as [|? ?]; [|simpl in Hlt; lia].
  change (take 2 (sort_desc [l0])) with [l0].
  destruct (sort_desc (technical_candidates cs)) as [|t ts] eqn:Et.
  - intros E. pose proof (collect_single l0) as Hlen.
    rewrite E in Hlen. simpl in Hlen. lia.
  - intros E. apply collect_pair in E as (? & ? & ? & ? & ->).
    assert (t ∈ technical_candidates cs) as Ht.
    { apply elem_of_sort_desc. rewrite Et. by left. }
    assert (l0 ∈ leadership_candidates cs) as Hl0 by (rewrite El; by left).
    apply elem_of_leadership_candidates in Hl0 as [_ Hl0].
    apply technical_candidates_lean in Ht as Hlean.
    assert (∀ t', t' ∈ technical_candidates cs →
              (hybrid_score t' <= hybrid_score t)%Q) as Htop.
    { intros t' Ht'. apply elem_of_sort_desc in Ht'. rewrite Et in Ht'.
      pose proof (sort_desc_descending (technical_candidates cs)) as Hs.
      rewrite Et in Hs. apply StronglySorted_cons in Hs as [Hall _].
      apply elem_of_cons in Ht' as [->|Ht']; [lra|].
      by eapply Forall_forall in Hall. }
    right. split; [done|]. exists l0, t. tauto.
Qed.

(** C2, as documented, fails: a leadership query, one leadership-leaning
    document far from the query and one technical-leaning document close to
    it, both with links. The success envelope lists the leadership document
    first although its score is the smaller one. *)
Lemma backfill_breaks_order :
  ∃ env r1 r2,
    (run_tool backfill_world ciso_query).1 = Returned env
    ∧ is_success env
    ∧ results env = Some [r1; r2]
    ∧ r_doc_id r1 = "doc-lead" ∧ (r_hybrid_score r1 == 0.13)%Q
    ∧ r_doc_id r2 = "doc-tech" ∧ (r_hybrid_score r2 == 0.72)%Q
    ∧ ¬ (r_hybrid_score r2 <= r_hybrid_score r1)%Q.
Proof.
  destruct (run_tool backfill_world ciso_query).1 as [env|] eqn:E;
    vm_compute in E; [|done].
  injection E as <-. do 3 eexists. split; [reflexivity|].
  unfold is_success. simpl. split_and!; try done; eauto.
Qed.

(** C2, amended. A success envelope has exactly two results. They are in
    descending order of [hybrid_score], except when the persona is
    leadership and the batch that produced them has exactly one
    leadership-leaning candidate: then the results are that candidate
    followed by the highest-scoring technical-leaning candidate of the
    batch, whatever their scores. *)
Theorem success_results_order (w : world) (query : string) (env : envelope) :
  (run_tool w query).1 = Returned env →
  is_success env →
  ∃ r1 r2,
    results env = Some [r1; r2]
    ∧ ((r_hybrid_score r2 <= r_hybrid_score r1)%Q
       ∨ (infer_persona query = Leadership
          ∧ ∃ q vs cs lead t,
              query_vectors w q = Returned (Some vs)
              ∧ score_batch Leadership (all_keywords (PyStr.lower query)) vs
                = Returned cs
              ∧ leadership_candidates cs = [lead]
              ∧ t ∈ technical_candidates cs
              ∧ (∀ t', t' ∈ technical_candidates cs →
                   (hybrid_score t' <= hybrid_score t)%Q)
              ∧ leans_leadership lead = true ∧ leans_leadership t = false
              ∧ r_doc_id r1 = doc_id (base lead)
              ∧ r_hybrid_score r1 = hybrid_score lead
              ∧ r_doc_id r2 = doc_id (base t)
              ∧ r_hybrid_score r2 = hybrid_score t)).
Proof.
  intros Hrun [Hmsg _].
  destruct (tool_envelope_cases _ _ _ Hrun)
    as [[_ [msg ->]]|[(valid & _ & _ & ->)|(r1 & r2 & rest & Es & ->)]];
    [done..|].
  exists (strip_summary r1), (strip_summary r2). split; [done|]. simpl.
  apply surviving_source in Es as (q & vs & Hq & Hpass).
  unfold run_pass, mbind, outcome_bind, obind, mret, outcome_ret in Hpass.
  destruct (score_batch _ _ vs) as [cs|] eqn:Eb; [|done].
  injection Hpass as Hpass.
  destruct (slate_order _ _ _ _ _ Hpass) as [Hle|[Hp (lead & t & H)]];
    [by left|].
  right. split; [done|]. rewrite Hp in Eb. exists q, vs, cs, lead, t. tauto.
Qed.

(** ** Exceptions *)

(** C3 fails on the code. The first [try] has a clause for [ClientError]
    only, so any other exception raised while the clients are built leaves
    the tool as an exception and no envelope is returned; the second [try]
    does catch every exception. *)
Theorem client_construction_failure_escapes (w : world) (query msg : string) :
  clients_outcome w = Raised (OtherException msg) →
  (run_tool w query).1 = Raised (OtherException msg)
  ∧ ¬ ∃ env, (run_tool w query).1 = Returned env.
Proof.
  intros Hc. rewrite (tool_client_escape _ _ _ Hc).
  split; [done|]. by intros [env ?].
Qed.

(** Once the clients exist nothing escapes: the second [try] turns every
    outcome of the pipeline into an envelope. *)
Lemma pipeline_never_escapes (w : world) (query : string) (log : list event) :
  ∃ env, (try_except (pipeline w query)
            (fun e => Some (mret (error_envelope e))) log).1 = Returned env.
Proof.
  unfold try_except. destruct (pipeline w query log) as [[env|e] log'].
  - by exists env.
  - by exists (error_envelope e).
Qed.

(** ** Instances *)

Lemma output_floor_lone :
  (∀ msg, clients_outcome lone_world ≠ Raised (OtherException msg))
  ∧ ∃ env,
      (run_tool lone_world ciso_query).1 = Returned env
      ∧ ¬ is_success env
      ∧ final_recommendation env = Some insufficient_recommendation.
Proof.
  assert (∀ msg, clients_outcome lone_world ≠ Raised (OtherException msg))
    as Hc by (intros msg; vm_compute; discriminate).
  split; [exact Hc|].
  destruct (output_floor lone_world ciso_query Hc)
    as (env & Hrun & Hiff & _ & Hsome & _).
  exists env. split; [exact Hrun|].
  destruct (surviving lone_world ciso_query) as [valid|] eqn:Es;
    vm_compute in Es; [|discriminate].
  injection Es as <-.
  destruct (Hsome _ eq_refl) as (_ & Hshort & _).
  destruct Hshort as (_ & _ & Hrec); [simpl; lia|].
  split; [|exact Hrec].
  intros Hs. apply Hiff in Hs as (valid & [= <-] & Hlen). simpl in Hlen. lia.
Defined.

Lemma success_results_order_ranked :
  ∃ env r1 r2,
    (run_tool ranked_world ciso_query).1 = Returned env
    ∧ is_success env
    ∧ results env = Some [r1; r2]
    ∧ r_doc_id r1 = "doc-strategy" ∧ r_doc_id r2 = "doc-lead"
    ∧ (r_hybrid_score r2 <= r_hybrid_score r1)%Q.
Proof.
  destruct (run_tool ranked_world ciso_query).1 as [env|] eqn:E;
    [|vm_compute in E; discriminate].
  assert (is_success env) as Hs.
  { pose proof E as E'. vm_compute in E'. injection E' as <-.
    unfold is_success. simpl. eauto. }
  destruct (success_results_order ranked_world ciso_query env E Hs)
    as (r1 & r2 & Hrs & Horder).
  exists env, r1, r2. vm_compute in E. injection E as <-.
  injection Hrs as <- <-. simpl.
  split_and!; try reflexivity; try exact Hs.
  vm_compute. discriminate.
Defined.

Lemma unknown_service_escapes :
  clients_outcome unknown_service_world
  = Raised (OtherException "Unknown service: 's3vectors'")
  ∧ (run_tool unknown_service_world ciso_query).1
    = Raised (OtherException "Unknown service: 's3vectors'").
Proof.
  assert (clients_outcome unknown_service_world
          = Raised (OtherException "Unknown service: 's3vectors'")) as Hc
    by reflexivity.
  split; [exact Hc|].
  exact (proj1 (client_construction_failure_escapes
                  unknown_service_world ciso_query _ Hc)).
Defined.

Lemma link_filter_backfill :
  ∃ env rs r v,
    (run_tool backfill_world ciso_query).1 = Returned env
    ∧ results env = Some rs
    ∧ r ∈ rs
    ∧ r_doc_id r = "doc-tech"
    ∧ vr_key v = Some "doc-tech"
    ∧ ¬ no_usable_link (default ∅ (vr_metadata v))
    ∧ r_links r !! "external_youtube_link" = Some "https://example.com/video"
    ∧ r_links r !! "content_link" = None.
Proof.
  destruct (run_tool backfill_world ciso_query).1 as [env|] eqn:E;
    [|vm_compute in E; discriminate].
  pose proof E as E'. vm_compute in E'. injection E' as <-.
  match type of E with
  | _ = Returned ?env0 =>
      match env0 with
      | Build_envelope _ (Some [?r1; ?r2]) _ =>
          destruct (link_filter backfill_world ciso_query env0 [r1; r2] r2 E)
            as (q & vs & v & _ & _ & Hkey & Husable & _);
            [reflexivity|right; left|];
            exists env0, [r1; r2], r2, v
      end
  end.
  split_and!; try reflexivity; try exact Hkey; try exact Husable.
  right. left.
Defined.

Lemma normalized_scores_bounded_sample :
  sample_scored 0.2 0 ∈ [sample_scored 0.4 0; sample_scored 0.2 0]
  ∧ (norm_kw [sample_scored 0.4 0; sample_scored 0.2 0] (sample_scored 0.2 0)
     == 0.5)%Q
  ∧ (norm_kw [sample_scored 0.4 0; sample_scored 0.2 0] (sample_scored 0.2 0)
     <= 1)%Q
  ∧ (norm_meta [sample_scored 0.4 0; sample_scored 0.2 0] (sample_scored 0.2 0)
     == 0)%Q.
Proof.
  assert (sample_scored 0.2 0 ∈ [sample_scored 0.4 0; sample_scored 0.2 0])
    as Hin by (right; left).
  destruct (normalized_scores_bounded _ _ Hin)
    as (Hkw & _ & Hdiv & _ & _ & Hzero).
  split_and!; [exact Hin| |exact Hkw|].
  - rewrite Hdiv; vm_compute; reflexivity.
  - apply Hzero. intros d Hd.
    apply elem_of_cons in Hd as [->|Hd];
      [|apply list_elem_of_singleton in Hd as ->]; reflexivity.
Defined.

Lemma empty_retry_lone :
  ∃ emb valid env,
    first_pass lone_world ciso_query = Some (emb, valid)
    ∧ length valid = 1%nat
    ∧ query_vectors lone_world {| queryVector := emb; topK := 15 |}
      = Returned (Some [])
    ∧ (run_tool lone_world ciso_query).1 = Returned env
    ∧ message env
      = Some "ERROR: Found only 1 video(s) with valid links; at least 2 required"
    ∧ results env = Some valid.
Proof.
  destruct (first_pass lone_world ciso_query) as [[emb valid]|] eqn:E;
    [|vm_compute in E; discriminate].
  assert (length valid = 1%nat) as Hlen.
  { pose proof E as E'. vm_compute in E'. injection E' as <- <-. reflexivity. }
  assert (query_vectors lone_world {| queryVector := emb; topK := 15 |}
          = Returned (Some [])) as Hq by reflexivity.
  destruct (empty_retry_keeps_first_pass lone_world ciso_query emb valid
              (Some []) E) as (env & Hrun & Hmsg & _ & Hres & _);
    [lia|exact Hq|reflexivity|].
  exists emb, valid, env. rewrite Hlen in Hmsg.
  split_and!; try done.
Defined.

(** * Further properties of the retrieval pipeline *)

(** ** Score ranges *)

Lemma ratio_nonneg (k n : nat) : (0 <= ratio k n)%Q.
Proof.
  unfold ratio. apply Qle_shift_div_l.
  - change 0%Q with (inject_Z 0). rewrite <- Zlt_Qlt. lia.
  - rewrite Qmult_0_l. change 0%Q with (inject_Z 0). rewrite <- Zle_Qle. lia.
Qed.

Lemma normalize_nonneg (x mx : Q) : (0 <= x)%Q → (0 <= normalize x mx)%Q.
Proof.
  intros Hx. unfold normalize. destruct (Qltb 0 mx) eqn:E; [|lra].
  apply Qltb_lt in E. apply Qle_shift_div_l; [done|lra].
Qed.

Lemma score_result_scores (p : persona) (kws : list string)
    (v : vector_result) (c : scored) :
  score_result p kws v = Returned c →
  semantic_score c = (1 - default 1.0 (vr_distance v))%Q
  ∧ (0 <= keyword_score c)%Q ∧ (0 <= metadata_score c)%Q.
Proof.
  unfold score_result. destruct (vr_key v); [|done].
  intros [= <-]. simpl. split_and!; [done|apply ratio_nonneg|].
  destruct (persona_terms p); [apply ratio_nonneg|lra].
Qed.

Lemma score_batch_elem (p : persona) (kws : list string)
    (vs : list vector_result) (cs : list candidate) (c : candidate) :
  score_batch p kws vs = Returned cs → c ∈ cs →
  ∃ ss v,
    omapM (score_result p kws) vs = Returned ss
    ∧ cs = blend p ss
    ∧ base c ∈ ss ∧ v ∈ vs ∧ score_result p kws v = Returned (base c)
    ∧ hybrid_score c
      = (semantic_weight p * semantic_score (base c)
         + keyword_weight p * norm_kw ss (base c)
         + 0.05 * norm_meta ss (base c))%Q.
Proof.
  unfold score_batch, mbind, outcome_bind, obind, mret, outcome_ret.
  destruct (omapM _ vs) as [ss|] eqn:E; [|done].
  intros [= <-] Hc.
  unfold blend in Hc. apply list_elem_of_fmap in Hc as (s & -> & Hs).
  apply omapM_Forall2 in E as HF.
  pose proof Hs as Hs'. apply list_elem_of_lookup in Hs' as [i Hi].
  destruct (Forall2_lookup_r _ _ _ _ _ HF Hi) as (v & Hv & Hscore).
  exists ss, v. split_and!; try done. by eapply list_elem_of_lookup_2.
Qed.

(** With every distance between 0 and 1 (an absent distance counts as 1),
    every hybrid score of the batch is between 0 and 1. *)
Theorem hybrid_score_unit_interval (p : persona) (kws : list string)
    (vs : list vector_result) (cs : list candidate) (c : candidate) :
  score_batch p kws vs = Returned cs →
  (∀ v, v ∈ vs →
     (0 <= default 1.0 (vr_distance v))%Q ∧ (default 1.0 (vr_distance v) <= 1)%Q) →
  c ∈ cs →
  (0 <= hybrid_score c)%Q ∧ (hybrid_score c <= 1)%Q.
Proof.
  intros Hb Hd Hc.
  destruct (score_batch_elem _ _ _ _ _ Hb Hc)
    as (ss & v & _ & _ & Hin & Hv & Hscore & ->).
  destruct (score_result_scores _ _ _ _ Hscore) as (Hsem & Hkw & Hmeta).
  destruct (Hd v Hv) as [Hd0 Hd1]. rewrite Hsem.
  assert (0 <= norm_kw ss (base c) ∧ norm_kw ss (base c) <= 1)%Q as [Hk0 Hk1].
  { split; [by apply normalize_nonneg|].
    apply normalize_le_1, py_max_ge, list_elem_of_fmap. eauto. }
  assert (0 <= norm_meta ss (base c) ∧ norm_meta ss (base c) <= 1)%Q as [Hm0 Hm1].
  { split; [by apply normalize_nonneg|].
    apply normalize_le_1, py_max_ge, list_elem_of_fmap. eauto. }
  unfold keyword_weight. destruct p; simpl semantic_weight; split; lra.
Qed.

Lemma foldl_max_elem (xs : list Q) (m : Q) :
  foldl (fun m y => if Qltb m y then y else m) m xs = m
  ∨ foldl (fun m y => if Qltb m y then y else m) m xs ∈ xs.
Proof.
  revert m. induction xs as [|y xs IH]; intros m; simpl; [by left|].
  destruct (Qltb m y).
  - right. destruct (IH y) as [-> | H]; [by left|by right].
  - destruct (IH m) as [-> | H]; [by left|right; by right].
Qed.

Lemma py_max_elem (d : Q) (xs : list Q) : xs ≠ [] → py_max d xs ∈ xs.
Proof.
  destruct xs as [|x xs]; [done|]. intros _. simpl.
  destruct (foldl_max_elem xs x) as [-> | H]; [by left|by right].
Qed.

(** When some raw keyword score of the batch is positive, the candidate
    holding the batch maximum gets the normalised keyword score 1, so the
    full keyword weight; the same holds for the metadata score. *)
Theorem best_match_normalizes_to_one (cs : list scored) :
  ((∃ d, d ∈ cs ∧ (0 < keyword_score d)%Q) →
   ∃ c, c ∈ cs ∧ keyword_score c = max_kw cs ∧ (norm_kw cs c == 1)%Q)
  ∧ ((∃ d, d ∈ cs ∧ (0 < metadata_score d)%Q) →
     ∃ c, c ∈ cs ∧ metadata_score c = max_meta cs ∧ (norm_meta cs c == 1)%Q).
Proof.
  assert (∀ (f : scored → Q), (∃ d, d ∈ cs ∧ (0 < f d)%Q) →
            ∃ c, c ∈ cs ∧ f c = py_max 0.0 (f <$> cs)
                 ∧ (normalize (f c) (py_max 0.0 (f <$> cs)) == 1)%Q) as H.
  { intros f (d & Hd & Hpos).
    assert (f <$> cs ≠ []) as Hne by (destruct cs; [inversion Hd|done]).
    pose proof (py_max_elem 0.0 _ Hne) as Hmax.
    apply list_elem_of_fmap in Hmax as (c & Hc & Hin).
    exists c. split_and!; [done..|].
    assert (f d <= py_max 0.0 (f <$> cs))%Q as Hle
      by (apply py_max_ge, list_elem_of_fmap; eauto).
    unfold normalize. rewrite <- Hc.
    assert (0 < py_max 0.0 (f <$> cs))%Q as Hlt by lra.
    apply Qltb_lt in Hlt as ->. field. lra. }
  split; apply H.
Qed.

(** ** Clustering and sorting *)

Lemma candidate_eqb_content (c d : candidate) :
  candidate_eqb c d = true → content (base c) = content (base d).
Proof.
  unfold candidate_eqb. rewrite !andb_true_iff.
  intros [[[[[[[[_ H] _] _] _] _] _] _] _]. by apply String.eqb_eq.
Qed.

Lemma py_in_leans (c : candidate) (cs : list candidate) :
  py_in c (leadership_candidates cs) = true → leans_leadership c = true.
Proof.
  unfold py_in. rewrite existsb_exists. intros (d & Hd & Heq).
  apply list_elem_of_In, elem_of_leadership_candidates in Hd as [_ Hd].
  apply candidate_eqb_content in Heq.
  unfold leans_leadership in *. by rewrite Heq.
Qed.

Lemma filter_split_permutation {A} (f : A → bool) (l : list A) :
  l ≡ₚ List.filter f l ++ List.filter (fun x => negb (f x)) l.
Proof.
  induction l as [|x l IH]; simpl; [done|].
  destruct (f x); simpl.
  - by constructor.
  - rewrite <- Permutation_middle. by constructor.
Qed.

Lemma technical_candidates_filter (cs : list candidate) :
  technical_candidates cs = List.filter (fun c => negb (leans_leadership c)) cs.
Proof.
  unfold technical_candidates. apply filter_ext_in. intros c Hc. f_equal.
  destruct (leans_leadership c) eqn:El.
  - apply py_in_elem, elem_of_leadership_candidates.
    split; [by apply list_elem_of_In|done].
  - destruct (py_in c (leadership_candidates cs)) eqn:Ep; [|done].
    apply py_in_leans in Ep. congruence.
Qed.

Lemma clusters_length (cs : list candidate) :
  (length (leadership_candidates cs) + length (technical_candidates cs)
   = length cs)%nat.
Proof.
  rewrite technical_candidates_filter, <- length_app.
  symmetry. apply Permutation_length, filter_split_permutation.
Qed.

(** The test [c not in leadership_candidates], which compares whole
    candidate dicts, selects exactly the candidates that fail the
    leadership test; the two lists split the batch. *)
Theorem clusters_partition (cs : list candidate) :
  technical_candidates cs = List.filter (fun c => negb (leans_leadership c)) cs
  ∧ cs ≡ₚ leadership_candidates cs ++ technical_candidates cs
  ∧ ∀ c, c ∈ cs →
      (c ∈ leadership_candidates cs ↔ leans_leadership c = true)
      ∧ (c ∈ technical_candidates cs ↔ leans_leadership c = false).
Proof.
  split; [apply technical_candidates_filter|]. split.
  - rewrite technical_candidates_filter. apply filter_split_permutation.
  - intros c Hc. split.
    + rewrite elem_of_leadership_candidates. tauto.
    + rewrite technical_candidates_filter.
      rewrite (list_elem_of_In (List.filter _ _) c), filter_In.
      rewrite <- list_elem_of_In, negb_true_iff. tauto.
Qed.

Lemma insert_desc_permutation (x : candidate) (l : list candidate) :
  insert_desc x l ≡ₚ x :: l.
Proof.
  induction l as [|y l IH]; simpl; [done|].
  destruct (Qltb _ _); [|done].
  rewrite IH. apply perm_swap.
Qed.

Lemma insert_desc_same_score (k : Q) (x : candidate) (l : list candidate) :
  List.filter (fun c => Qeq_bool (hybrid_score c) k) (insert_desc x l)
  = List.filter (fun c => Qeq_bool (hybrid_score c) k) (x :: l).
Proof.
  induction l as [|y l IH]; [done|].
  simpl insert_desc.
  destruct (Qltb (hybrid_score x) (hybrid_score y)) eqn:E; [|done].
  apply Qltb_lt in E. simpl in *. rewrite IH.
  destruct (Qeq_bool (hybrid_score x) k) eqn:Ex; [|done].
  destruct (Qeq_bool (hybrid_score y) k) eqn:Ey; [|done].
  apply Qeq_bool_iff in Ex, Ey. lra.
Qed.

(** [sort(key=hybrid_score, reverse=True)] rearranges the list into
    descending order of score and is stable: the candidates that share a
    score keep the order they had. *)
Theorem sort_desc_stable (l : list candidate) :
  sort_desc l ≡ₚ l
  ∧ descending hybrid_score (sort_desc l)
  ∧ ∀ k, List.filter (fun c => Qeq_bool (hybrid_score c) k) (sort_desc l)
         = List.filter (fun c => Qeq_bool (hybrid_score c) k) l.
Proof.
  split_and!.
  - unfold sort_desc. induction l as [|x l IH]; simpl; [done|].
    by rewrite insert_desc_permutation, IH.
  - apply sort_desc_descending.
  - intros k. unfold sort_desc. induction l as [|x l IH]; [done|].
    simpl foldr. rewrite insert_desc_same_score. simpl. by rewrite IH.
Qed.

Lemma length_collect_valid_results (docs : list candidate) :
  (length (collect_valid_results docs) ≤ length docs)%nat.
Proof.
  unfold collect_valid_results. induction docs as [|d docs IH]; simpl; [done|].
  rewrite length_app. destruct (bool_decide _); simpl; lia.
Qed.

Lemma length_select_top_docs (p : persona) (cs : list candidate) :
  (length (select_top_docs p cs) ≤ 5)%nat
  ∧ (length (select_top_docs p cs) ≤ length cs)%nat
  ∧ (p = Leadership → leadership_candidates cs ≠ [] →
     length (select_top_docs p cs) ≤ 2)%nat.
Proof.
  assert (∀ n l, length (take n (sort_desc l)) ≤ n
                 ∧ length (take n (sort_desc l)) ≤ length l)%nat as Htake.
  { intros n l. rewrite length_take, length_sort_desc. lia. }
  pose proof (clusters_length cs) as Hsplit.
  unfold select_top_docs.
  destruct p; try (split_and!; [apply Htake..|done]).
  destruct (leadership_candidates cs) as [|l0 ls] eqn:El;
    [split_and!; [apply Htake..|done]|].
  destruct (Htake 2 (l0 :: ls)) as [H2 Hl].
  destruct (Nat.ltb_spec (length (take 2 (sort_desc (l0 :: ls)))) 2) as [Hlt|Hge].
  - destruct (sort_desc (technical_candidates cs)) as [|t ts] eqn:Et.
    + split_and!; [lia| |intros; lia]. simpl in *. lia.
    + rewrite length_app. change (length [t]) with 1%nat.
      assert (1 ≤ length (technical_candidates cs))%nat
        by (rewrite <- length_sort_desc, Et; simpl; lia).
      split_and!; [lia| |intros; lia]. simpl in *. lia.
  - split_and!; [lia| |intros; lia]. simpl in *. lia.
Qed.

Lemma length_score_batch (p : persona) (kws : list string)
    (vs : list vector_result) (cs : list candidate) :
  score_batch p kws vs = Returned cs → length cs = length vs.
Proof.
  unfold score_batch, mbind, outcome_bind, obind, mret, outcome_ret.
  destruct (omapM _ vs) as [ss|] eqn:E; [|done].
  intros [= <-]. apply omapM_Forall2, Forall2_length in E.
  unfold blend. by rewrite length_fmap.
Qed.

(** One pass yields at most five valid results and never more than the
    response has vectors; for the leadership persona with a
    leadership-leaning candidate in the batch it yields at most two. *)
Theorem pass_size (p : persona) (kws : list string)
    (vs : list vector_result) (cs : list candidate) (valid : list result_entry) :
  score_batch p kws vs = Returned cs →
  run_pass p kws vs = Returned valid →
  (length valid ≤ 5)%nat
  ∧ (length valid ≤ length vs)%nat
  ∧ (p = Leadership → leadership_candidates cs ≠ [] → length valid ≤ 2)%nat.
Proof.
  intros Hb. unfold run_pass, mbind, outcome_bind, obind, mret, outcome_ret.
  rewrite Hb. intros [= <-].
  pose proof (length_collect_valid_results (select_top_docs p cs)) as Hc.
  destruct (length_select_top_docs p cs) as (H5 & Hcs & H2).
  rewrite <- (length_score_batch _ _ _ _ Hb).
  split_and!; [lia..|]. intros Hp Hl. specialize (H2 Hp Hl). lia.
Qed.

(** ** The recommendation text *)

(** In a success envelope the recommendation is the fixed four-line text
    naming the two results in order. Its label is decided by the score of
    the first listed result alone: "Highly recommended" when that score is
    strictly above 0.5, "Moderately relevant" otherwise. *)
Theorem recommendation_label (w : world) (query : string) (env : envelope) :
  (run_tool w query).1 = Returned env →
  is_success env →
  ∃ r1 r2 s1 s2,
    results env = Some [r1; r2]
    ∧ final_recommendation env
      = Some ((if Qltb 0.5 (r_hybrid_score r1) then "Highly recommended"
               else "Moderately relevant")
              ++ ": Relevant for agentic AI security." ++ newline
              ++ "- Video 1 (" ++ r_doc_id r1 ++ "): " ++ s1 ++ newline
              ++ "- Video 2 (" ++ r_doc_id r2 ++ "): " ++ s2 ++ newline
              ++ "Start with Video 1 for its focus on AI agent security.").
Proof.
  intros Hrun [Hmsg _].
  destruct (tool_envelope_cases _ _ _ Hrun)
    as [[_ [msg ->]]|[(valid & _ & _ & ->)|(r1 & r2 & rest & Es & ->)]];
    [done..|].
  exists (strip_summary r1), (strip_summary r2).
  exists (default "No summary available." (r_summary r1)).
  exists (default "No summary available." (r_summary r2)).
  done.
Qed.

(** ** Order of the external calls *)

(** The tool calls the outside in one fixed order and stops early only:
    the two clients, the embedding of the query as given, the vector query
    with [topK = 10], then the retry with [topK = 15] and the same query
    vector. Nothing is called twice and nothing follows the retry. *)
Theorem external_call_order (w : world) (query : string) :
  let emb :=
    match invoke_model w query with Returned (Some e) => e | _ => [] end in
  (run_tool w query).2
  `prefix_of` [CreateClient "bedrock-runtime"; CreateClient "s3vectors";
               InvokeModel query;
               QueryVectors {| queryVector := emb; topK := 10 |};
               QueryVectors {| queryVector := emb; topK := 15 |}].
Proof.
  unfold_tool.
  destruct (create_client w "bedrock-runtime") as [[]|[]]; simpl;
    try by eexists.
  destruct (create_client w "s3vectors") as [[]|[]]; simpl; try by eexists.
  destruct (invoke_model w query) as [[emb|]|]; simpl; try by eexists.
  destruct (query_vectors w {| queryVector := emb; topK := 10 |})
    as [[[|v vs]|]|]; reduce_vectors; simpl; try by eexists.
  destruct (run_pass _ _ (v :: vs)) as [valid1|]; simpl; [|by eexists].
  destruct (length valid1 <? 2)%nat; simpl;
    [|destruct (prepare_output _); by eexists].
  destruct (query_vectors w {| queryVector := emb; topK := 15 |})
    as [[[|v' vs']|]|]; reduce_vectors; simpl;
    try (destruct (prepare_output _); by eexists); try by eexists.
  destruct (run_pass _ _ (v' :: vs')); simpl; [|by eexists].
  destruct (prepare_output _); by eexists.
Qed.

(** ** Failures inside the pipeline *)

Lemma omapM_missing_key (p : persona) (kws : list string)
    (vs : list vector_result) (v : vector_result) :
  v ∈ vs → vr_key v = None →
  omapM (score_result p kws) vs = Raised (OtherException "'key'").
Proof.
  intros Hv Hkey. induction vs as [|x vs IH]; [inversion Hv|].
  simpl. unfold obind.
  destruct (score_result p kws x) as [y|e] eqn:Ex.
  - apply elem_of_cons in Hv as [->|Hv].
    + unfold score_result in Ex. by rewrite Hkey in Ex.
    + by rewrite (IH Hv).
  - unfold score_result in Ex. destruct (vr_key x); congruence.
Qed.

Lemma clients_ok (w : world) :
  clients_outcome w = Returned () →
  create_client w "bedrock-runtime" = Returned ()
  ∧ create_client w "s3vectors" = Returned ().
Proof.
  unfold clients_outcome, mbind, outcome_bind, obind.
  by destruct (create_client w "bedrock-runtime") as [[]|].
Qed.

(** One vector without a [key] entry in the first response fails the whole
    query: the [KeyError] is caught by the outer handler, the envelope
    carries its text only, and no retry is made, whatever the other vectors
    hold. *)
Theorem missing_key_fails_query (w : world) (query : string)
    (emb : list Q) (vs : list vector_result) (v : vector_result) :
  clients_outcome w = Returned () →
  invoke_model w query = Returned (Some emb) →
  query_vectors w {| queryVector := emb; topK := 10 |} = Returned (Some vs) →
  v ∈ vs → vr_key v = None →
  run_tool w query
  = (Returned (message_only "Exception: 'key'"),
     [CreateClient "bedrock-runtime"; CreateClient "s3vectors";
      InvokeModel query; QueryVectors {| queryVector := emb; topK := 10 |}]).
Proof.
  intros [Hb Hs]%clients_ok Hemb Hq Hv Hkey.
  assert (run_pass (infer_persona query) (all_keywords (PyStr.lower query)) vs
          = Raised (OtherException "'key'")) as Hpass.
  { unfold run_pass, score_batch, mbind, outcome_bind, obind.
    by rewrite (omapM_missing_key _ _ _ _ Hv Hkey). }
  unfold_tool. rewrite Hb, Hs, Hemb. simpl. rewrite Hq. reduce_vectors.
  destruct vs as [|v0 vs0]; [inversion Hv|]. by rewrite Hpass.
Qed.

Lemma first_pass_inv (w : world) (query : string)
    (emb : list Q) (valid : list result_entry) :
  first_pass w query = Some (emb, valid) →
  clients_outcome w = Returned ()
  ∧ invoke_model w query = Returned (Some emb)
  ∧ ∃ v vs,
      query_vectors w {| queryVector := emb; topK := 10 |}
      = Returned (Some (v :: vs))
      ∧ run_pass (infer_persona query) (all_keywords (PyStr.lower query))
          (v :: vs) = Returned valid.
Proof.
  unfold first_pass.
  destruct (clients_outcome w) as [[]|]; [|done].
  destruct (invoke_model w query) as [[emb'|]|]; [|done..].
  destruct (query_vectors w {| queryVector := emb'; topK := 10 |})
    as [[[|v vs]|]|] eqn:Eq; [done| |done..].
  destruct (run_pass _ _ (v :: vs)) as [valid1|] eqn:Ep; [|done].
  intros [= <- <-]. eauto 10.
Qed.

(** When the retry query raises, the valid result the first pass had found
    is not returned: the envelope carries the error text only. *)
Theorem retry_error_discards_results (w : world) (query : string)
    (emb : list Q) (valid : list result_entry) (e : exn) :
  first_pass w query = Some (emb, valid) →
  (length valid < 2)%nat →
  query_vectors w {| queryVector := emb; topK := 15 |} = Raised e →
  (run_tool w query).1 = Returned (error_envelope e)
  ∧ results (error_envelope e) = None
  ∧ final_recommendation (error_envelope e) = None.
Proof.
  intros (Hc & Hemb & v & vs & Hq & Hpass)%first_pass_inv Hlen Hretry.
  apply clients_ok in Hc as [Hb Hs].
  split; [|by destruct e].
  unfold_tool. rewrite Hb, Hs, Hemb. simpl. rewrite Hq. reduce_vectors.
  rewrite Hpass. simpl.
  destruct (Nat.ltb_spec (length valid) 2); [|lia].
  by rewrite Hretry.
Qed.

(** When the retry response has vectors, the results are those of the
    retry pass alone; what the first pass had found is not merged in, so a
    result of the first pass that the retry does not find again is lost. *)
Theorem retry_replaces_first_pass (w : world) (query : string)
    (emb : list Q) (valid valid' : list result_entry)
    (vs' : list vector_result) :
  first_pass w query = Some (emb, valid) →
  (length valid < 2)%nat →
  query_vectors w {| queryVector := emb; topK := 15 |} = Returned (Some vs') →
  vs' ≠ [] →
  run_pass (infer_persona query) (all_keywords (PyStr.lower query)) vs'
  = Returned valid' →
  ∃ env,
    (run_tool w query).1 = Returned env
    ∧ ((length valid' < 2)%nat → results env = Some valid')
    ∧ ((2 ≤ length valid')%nat →
       results env = Some (strip_summary <$> take 2 valid')).
Proof.
  intros Hfirst Hlen Hretry Hne Hpass.
  assert (surviving w query = Some valid') as Hs.
  { unfold surviving. rewrite Hfirst, Hretry.
    destruct (Nat.ltb_spec (length valid) 2); [|lia].
    destruct vs' as [|v' vs'']; [done|]. by rewrite Hpass. }
  rewrite (tool_reaches_output _ _ _ Hs).
  destruct (Nat.ltb_spec (length valid') 2) as [Hlt|Hge].
  - rewrite prepare_output_short by done. eexists. split; [done|].
    simpl. split; [done|lia].
  - destruct (prepare_output_enough _ Hge) as (r1 & r2 & rest & -> & ->).
    eexists. split; [done|]. simpl. split; [lia|done].
Qed.

(** When the embedding response has no [embedding] entry, or the embedding
    call raises, the tool answers with a message-only envelope and the
    vector index is never queried. *)
Theorem embedding_failure_skips_index (w : world) (query : string) :
  clients_outcome w = Returned () →
  (invoke_model w query = Returned None →
   run_tool w query
   = (Returned (message_only "NO_RELEVANT_OUTPUT"),
      [CreateClient "bedrock-runtime"; CreateClient "s3vectors";
       InvokeModel query]))
  ∧ (∀ e, invoke_model w query = Raised e →
       run_tool w query
       = (Returned (error_envelope e),
          [CreateClient "bedrock-runtime"; CreateClient "s3vectors";
           InvokeModel query])).
Proof.
  intros [Hb Hs]%clients_ok. split.
  - intros Hemb. unfold_tool. by rewrite Hb, Hs, Hemb.
  - intros e Hemb. unfold_tool. by rewrite Hb, Hs, Hemb.
Qed.

(** ** Keywords *)

Lemma synonyms_long (kw : string) (l : list string) :
  synonyms !! kw = Some l → Forall (fun s => (2 ≤ String.length s)%nat) l.
Proof.
  unfold synonyms. intros H. apply elem_of_list_to_map_2 in H.
  repeat (apply elem_of_cons in H as [[= -> ->]|H];
          [apply Forall_forall; intros s Hs;
           repeat (apply elem_of_cons in Hs as [->|Hs]; [simpl; lia|]);
           inversion Hs|]).
  inversion H.
Qed.

(** Every search term used for the keyword score, query token or synonym,
    has at least two characters: one-letter tokens are dropped and no term
    is empty. *)
Theorem keywords_have_two_chars (query_lower : string) :
  Forall (fun kw => (2 ≤ String.length kw)%nat) (all_keywords query_lower)
  ∧ ∀ kw, kw ∈ PyStr.split query_lower →
      (kw ∈ all_keywords query_lower ↔ (2 ≤ String.length kw)%nat).
Proof.
  assert (Forall (fun kw => (2 ≤ String.length kw)%nat)
            (all_keywords query_lower)) as Hall.
  { unfold all_keywords. apply Forall_app. split.
    - apply Forall_forall. intros kw Hkw.
      unfold keywords_of in Hkw. by apply list_elem_of_filter in Hkw as [? _].
    - apply Forall_forall. intros s Hs.
      apply list_elem_of_In, in_flat_map in Hs as (kw & _ & Hs).
      destruct (synonyms !! kw) as [l|] eqn:E; simpl in Hs; [|done].
      apply synonyms_long in E. rewrite Forall_forall in E.
      apply E. by apply list_elem_of_In. }
  split; [done|]. intros kw Hkw. split.
  - intros Hin. rewrite Forall_forall in Hall. auto.
  - intros Hlen. unfold all_keywords, keywords_of.
    apply elem_of_app. left. by apply list_elem_of_filter.
Qed.

(** * The entrypoint *)

(** ** Stripping *)

Lemma lstrip_wrapper (chars w s : string) :
  all_in chars w = true →
  PyChars.lstrip chars (w ++ s) = PyChars.lstrip chars s.
Proof.
  induction w as [|c w IH]; simpl; [done|].
  intros [Hc Hw]%andb_true_iff. rewrite Hc. auto.
Qed.

Lemma rstrip_all_in (chars w : string) :
  all_in chars w = true → PyChars.rstrip chars w = "".
Proof.
  induction w as [|c w IH]; simpl; [done|].
  intros [Hc Hw]%andb_true_iff. by rewrite (IH Hw), Hc.
Qed.

Lemma rstrip_wrapper (chars w s : string) :
  all_in chars w = true →
  PyChars.rstrip chars (s ++ w) = PyChars.rstrip chars s.
Proof.
  intros Hw. induction s as [|c s IH]; simpl.
  - by apply rstrip_all_in.
  - by rewrite IH.
Qed.

Lemma lstrip_all_in (chars w : string) :
  all_in chars w = true → PyChars.lstrip chars w = "".
Proof.
  induction w as [|c w IH]; simpl; [done|].
  intros [Hc Hw]%andb_true_iff. rewrite Hc. auto.
Qed.

Lemma strip_right_wrapper (chars w s : string) :
  all_in chars w = true →
  PyChars.strip chars (s ++ w) = PyChars.strip chars s.
Proof.
  intros Hw. unfold PyChars.strip. induction s as [|c s IH]; simpl.
  - by rewrite lstrip_all_in.
  - destruct (PyChars.in_chars chars c); [done|].
    change (String c (s ++ w)) with (String c s ++ w).
    by apply rstrip_wrapper.
Qed.

Lemma strip_wrappers (chars w1 w2 s : string) :
  all_in chars w1 = true → all_in chars w2 = true →
  PyChars.strip chars (w1 ++ s ++ w2) = PyChars.strip chars s.
Proof.
  intros H1 H2. rewrite <- (strip_right_wrapper chars w2 s H2).
  unfold PyChars.strip. by rewrite lstrip_wrapper.
Qed.

(** Stripping a smaller set of characters from the right after a larger
    one changes nothing. *)
Lemma rstrip_rstrip (chars chars' s : string) :
  (∀ c, PyChars.in_chars chars' c = true → PyChars.in_chars chars c = true) →
  PyChars.rstrip chars' (PyChars.rstrip chars s) = PyChars.rstrip chars s.
Proof.
  intros Hsub. induction s as [|c s IH]; simpl; [done|].
  destruct (PyChars.rstrip chars s) as [|c2 r] eqn:E.
  - destruct (PyChars.in_chars chars c) eqn:Ec; simpl; [done|].
    destruct (PyChars.in_chars chars' c) eqn:Ec'; [|done].
    apply Hsub in Ec'. congruence.
  - change (PyChars.rstrip chars' (String c (String c2 r)))
      with (match PyChars.rstrip chars' (String c2 r) with
            | EmptyString =>
                if PyChars.in_chars chars' c then EmptyString
                else String c EmptyString
            | r' => String c r'
            end).
    by rewrite IH.
Qed.

Lemma squote_in_wrapper (c : ascii) :
  PyChars.in_chars squote c = true → PyChars.in_chars wrapper_chars c = true.
Proof.
  simpl. rewrite !orb_false_r. intros ->. by rewrite orb_true_r.
Qed.

Lemma unwrap_strip (r : string) : unwrap r = PyChars.strip wrapper_chars r.
Proof. unfold unwrap, PyChars.strip. apply rstrip_rstrip, squote_in_wrapper. Qed.

(** Layers of the letter b and of single or double quotes around the
    response, as many and in whatever order, do not change what is handed to
    the JSON parser. *)
Theorem wrappers_are_transparent (w1 w2 s : string) :
  all_in wrapper_chars w1 = true →
  all_in wrapper_chars w2 = true →
  clean_response (w1 ++ s ++ w2) = clean_response s.
Proof.
  intros H1 H2. unfold clean_response.
  by rewrite !unwrap_strip, strip_wrappers.
Qed.

Lemma lstrip_idem (chars s : string) :
  PyChars.lstrip chars (PyChars.lstrip chars s) = PyChars.lstrip chars s.
Proof.
  induction s as [|c s IH]; simpl; [done|].
  destruct (PyChars.in_chars chars c) eqn:E; [done|]. simpl. by rewrite E.
Qed.

Lemma lstrip_rstrip (chars s : string) :
  PyChars.lstrip chars s = s →
  PyChars.lstrip chars (PyChars.rstrip chars s) = PyChars.rstrip chars s.
Proof.
  destruct s as [|c s]; simpl; [done|].
  destruct (PyChars.in_chars chars c) eqn:E.
  - intros H. exfalso.
    assert (String.length (PyChars.lstrip chars s) ≤ String.length s)%nat as Hl.
    { clear. induction s as [|c s IH]; simpl; [done|].
      destruct (PyChars.in_chars chars c); simpl; lia. }
    rewrite H in Hl. simpl in Hl. lia.
  - intros _. destruct (PyChars.rstrip chars s); simpl; by rewrite E.
Qed.

Lemma strip_idem (chars s : string) :
  PyChars.strip chars (PyChars.strip chars s) = PyChars.strip chars s.
Proof.
  unfold PyChars.strip.
  rewrite (lstrip_rstrip chars (PyChars.lstrip chars s)) by apply lstrip_idem.
  by apply rstrip_rstrip.
Qed.

(** The [rstrip] of the single quote that follows the [strip] never
    removes anything, unwrapping twice is unwrapping once, and so a list
    response with one element is handled as that element alone. *)
Theorem list_of_one_is_the_string (J R : Type)
    (json_loads : string → J + string) (s : string) :
  unwrap s = PyChars.strip wrapper_chars s
  ∧ unwrap (unwrap s) = unwrap s
  ∧ parse_response J R json_loads (PyStr.join "" (unwrap <$> [s]))
    = parse_response J R json_loads s.
Proof.
  split; [apply unwrap_strip|].
  assert (unwrap (unwrap s) = unwrap s) as Hidem
    by (rewrite !unwrap_strip; apply strip_idem).
  split; [done|].
  unfold parse_response, clean_response. simpl. by rewrite Hidem.
Qed.

(** ** Replacing *)

Lemma startswith_cons (a b : ascii) (p s : string) :
  PyStr.startswith (String a p) (String b s)
  = if Ascii.eqb a b then PyStr.startswith p s else false.
Proof. reflexivity. Qed.

Lemma replace_from_cons (old new : string) (c : ascii) (s : string) :
  PyChars.replace_from old new 0 (String c s)
  = if PyStr.startswith old (String c s)
    then new ++ PyChars.replace_from old new (String.length old - 1) s
    else String c (PyChars.replace_from old new 0 s).
Proof. reflexivity. Qed.

Lemma replace_from_skip (old new : string) (k : nat) (c : ascii) (s : string) :
  PyChars.replace_from old new (S k) (String c s)
  = PyChars.replace_from old new k s.
Proof. reflexivity. Qed.

Lemma escape_cons (c : ascii) (s : string) :
  escape (String c s)
  = if Ascii.eqb c (ascii_of_nat 92)
    then String (ascii_of_nat 92) (String (ascii_of_nat 92) (escape s))
    else if Ascii.eqb c (ascii_of_nat 34)
         then String (ascii_of_nat 92) (String (ascii_of_nat 34) (escape s))
         else String c (escape s).
Proof. reflexivity. Qed.

Lemma double_backslashes_cons (c : ascii) (s : string) :
  double_backslashes (String c s)
  = if Ascii.eqb c (ascii_of_nat 92)
    then String (ascii_of_nat 92) (String (ascii_of_nat 92) (double_backslashes s))
    else String c (double_backslashes s).
Proof. reflexivity. Qed.

Lemma replace_no_backslash (old' new s : string) :
  PyStr.contains backslash s = false →
  PyChars.replace_from (String (ascii_of_nat 92) old') new 0 s = s.
Proof.
  induction s as [|c s IH]; [done|].
  cbn [PyStr.contains]. unfold backslash. rewrite startswith_cons.
  intros [Hc Hs]%orb_false_iff.
  rewrite replace_from_cons, startswith_cons.
  destruct (Ascii.eqb (ascii_of_nat 92) c); [done|]. by rewrite IH.
Qed.

Lemma escape_no_leading_quote (s : string) :
  PyStr.startswith (String (ascii_of_nat 34) "") (escape s) = false.
Proof.
  destruct s as [|c s]; [done|]. rewrite escape_cons.
  destruct (Ascii.eqb c (ascii_of_nat 92)) eqn:E1; [done|].
  destruct (Ascii.eqb c (ascii_of_nat 34)) eqn:E2; [done|].
  rewrite startswith_cons. by rewrite Ascii.eqb_sym, E2.
Qed.

Lemma unescape_quotes (s : string) :
  PyChars.replace_from (String (ascii_of_nat 92) (String (ascii_of_nat 34) ""))
    (String (ascii_of_nat 34) "") 0 (escape s)
  = double_backslashes s.
Proof.
  induction s as [|c s IH]; [done|].
  rewrite escape_cons, double_backslashes_cons.
  destruct (Ascii.eqb c (ascii_of_nat 92)) eqn:E1.
  - rewrite replace_from_cons, !startswith_cons, Ascii.eqb_refl.
    replace (Ascii.eqb (ascii_of_nat 34) (ascii_of_nat 92)) with false
      by reflexivity.
    f_equal.
    rewrite replace_from_cons, startswith_cons, Ascii.eqb_refl.
    pose proof (escape_no_leading_quote s) as Hq. rewrite Hq.
    by rewrite IH.
  - destruct (Ascii.eqb c (ascii_of_nat 34)) eqn:E2.
    + rewrite replace_from_cons, !startswith_cons, !Ascii.eqb_refl.
      cbn [PyStr.startswith String.length Nat.sub].
      rewrite replace_from_skip, IH.
      apply Ascii.eqb_eq in E2 as ->. reflexivity.
    + rewrite replace_from_cons, startswith_cons.
      rewrite Ascii.eqb_sym, E1. by rewrite IH.
Qed.

Lemma unescape_backslashes (s : string) :
  PyChars.replace_from (String (ascii_of_nat 92) (String (ascii_of_nat 92) ""))
    (String (ascii_of_nat 92) "") 0 (double_backslashes s) = s.
Proof.
  induction s as [|c s IH]; [done|]. rewrite double_backslashes_cons.
  destruct (Ascii.eqb c (ascii_of_nat 92)) eqn:E1.
  - rewrite replace_from_cons, !startswith_cons, !Ascii.eqb_refl.
    cbn [PyStr.startswith String.length Nat.sub].
    rewrite replace_from_skip, IH.
    apply Ascii.eqb_eq in E1 as ->. reflexivity.
  - rewrite replace_from_cons, startswith_cons.
    rewrite Ascii.eqb_sym, E1. by rewrite IH.
Qed.

Lemma escape_app (a b : string) : escape (a ++ b) = escape a ++ escape b.
Proof.
  induction a as [|c a IH]; [done|].
  change (String c a ++ b) with (String c (a ++ b)).
  rewrite !escape_cons, IH.
  destruct (Ascii.eqb c (ascii_of_nat 92)); [done|].
  by destruct (Ascii.eqb c (ascii_of_nat 34)).
Qed.

Lemma rstrip_keep (chars s : string) (c : ascii) :
  PyChars.in_chars chars c = false →
  PyChars.rstrip chars (s ++ String c "") = s ++ String c "".
Proof.
  intros Hc. induction s as [|a s IH]; simpl.
  - by rewrite Hc.
  - rewrite IH. by destruct s.
Qed.

Lemma strip_keep (chars mid : string) (c0 c1 : ascii) :
  PyChars.in_chars chars c0 = false →
  PyChars.in_chars chars c1 = false →
  PyChars.strip chars (String c0 (mid ++ String c1 ""))
  = String c0 (mid ++ String c1 "").
Proof.
  intros H0 H1. unfold PyChars.strip. simpl PyChars.lstrip. rewrite H0.
  change (String c0 (mid ++ String c1 "")) with (String c0 mid ++ String c1 "").
  by apply rstrip_keep.
Qed.

Lemma clean_response_unfold (response : string) :
  clean_response response
  = PyChars.replace_from
      (String (ascii_of_nat 92) (String (ascii_of_nat 92) ""))
      (String (ascii_of_nat 92) "") 0
      (PyChars.replace_from
         (String (ascii_of_nat 92) (String (ascii_of_nat 34) ""))
         (String (ascii_of_nat 34) "") 0
         (PyChars.strip wrapper_chars response)).
Proof. unfold clean_response. by rewrite unwrap_strip. Qed.

(** A response without backslashes that neither starts nor ends with the
    letter b or a quote reaches the JSON parser unchanged. *)
Theorem plain_text_unchanged (c0 c1 : ascii) (mid : string) :
  PyChars.in_chars wrapper_chars c0 = false →
  PyChars.in_chars wrapper_chars c1 = false →
  PyStr.contains backslash (String c0 (mid ++ String c1 "")) = false →
  clean_response (String c0 (mid ++ String c1 ""))
  = String c0 (mid ++ String c1 "").
Proof.
  intros H0 H1 Hb.
  rewrite clean_response_unfold, strip_keep by done.
  rewrite (replace_no_backslash _ _ _ Hb).
  apply (replace_no_backslash _ _ _ Hb).
Qed.

Lemma in_chars_app (a b : string) (c : ascii) :
  PyChars.in_chars (a ++ b) c = PyChars.in_chars a c || PyChars.in_chars b c.
Proof.
  induction a as [|x a IH]; [done|].
  change (PyChars.in_chars (String x a ++ b) c)
    with (Ascii.eqb c x || PyChars.in_chars (a ++ b) c).
  change (PyChars.in_chars (String x a) c)
    with (Ascii.eqb c x || PyChars.in_chars a c).
  by rewrite IH, orb_assoc.
Qed.

(** Round trip. A text that starts and ends with a character other than
    b, a quote or a backslash (a JSON object or array does), escaped once
    and wrapped in any layers of b and quotes, is recovered exactly by the
    cleaning chain. *)
Theorem clean_undoes_escape (w1 w2 mid : string) (c0 c1 : ascii) :
  all_in wrapper_chars w1 = true →
  all_in wrapper_chars w2 = true →
  PyChars.in_chars (wrapper_chars ++ backslash) c0 = false →
  PyChars.in_chars (wrapper_chars ++ backslash) c1 = false →
  clean_response (w1 ++ escape (String c0 (mid ++ String c1 "")) ++ w2)
  = String c0 (mid ++ String c1 "").
Proof.
  intros Hw1 Hw2 H0 H1.
  rewrite clean_response_unfold, strip_wrappers by done.
  assert (∀ c, PyChars.in_chars (wrapper_chars ++ backslash) c = false →
            PyChars.in_chars wrapper_chars c = false
            ∧ Ascii.eqb c (ascii_of_nat 92) = false
            ∧ Ascii.eqb c (ascii_of_nat 34) = false) as Hsplit.
  { intros c. rewrite in_chars_app.
    change (PyChars.in_chars backslash c)
      with (Ascii.eqb c (ascii_of_nat 92) || false).
    intros [Hw Hk]%orb_false_iff. split; [done|].
    rewrite orb_false_r in Hk. split; [done|].
    change (PyChars.in_chars wrapper_chars c)
      with (Ascii.eqb c (ascii_of_nat 98)
            || (Ascii.eqb c (ascii_of_nat 39)
                || (Ascii.eqb c (ascii_of_nat 34) || false))) in Hw.
    rewrite !orb_false_iff in Hw. tauto. }
  destruct (Hsplit _ H0) as (H0w & H0k & H0d).
  destruct (Hsplit _ H1) as (H1w & H1k & H1d).
  assert (escape (String c0 (mid ++ String c1 ""))
          = String c0 (escape mid ++ String c1 "")) as He.
  { rewrite escape_cons, H0k, H0d, escape_app, escape_cons, H1k, H1d.
    reflexivity. }
  rewrite He, strip_keep by done. rewrite <- He.
  by rewrite unescape_quotes, unescape_backslashes.
Qed.

(** * Provisioning *)

Import Cfn.

Ltac unfold_cfn :=
  unfold send, subscript, catch, attempt, perform, raise,
    mbind, mret, C_bind, C_ret, cbind, cret in *.

(** Case analysis on the innermost scrutinee of the goal. *)
Ltac split_match :=
  match goal with
  | |- context [match ?x with _ => _ end] =>
      lazymatch x with
      | context [match _ with _ => _ end] => fail
      | _ => destruct x eqn:?
      end
  end.

(** ** [cfnresponse.send] *)


Lemma or_else_nonempty (x : option string) (y : string) :
  y ≠ "" → or_else x y ≠ "".
Proof. by destruct x as [[|]|]. Qed.

(** What [send] puts in the body: the status and the data as given, the
    three identifiers of the event, the given reason unless it is absent or
    empty, in which case the pointer to the log stream stands in, so the
    reason is never empty; and the log stream name as physical id when none
    is given. The length header is the length of the serialised body. *)
Theorem send_body (w : cfn_world) (event : cfn_event)
    (context : lambda_context) (responseStatus : string)
    (responseData : gmap string string) (physicalResourceId : option string)
    (noEcho : bool) (reason : option string) (log : list action)
    (url : string) (body : response_body) (len : string) :
  (send w event context responseStatus responseData physicalResourceId
     noEcho reason log).2 = (log ++ [HttpPut url body len])%list →
  Status body = responseStatus
  ∧ Data body = responseData
  ∧ NoEcho body = noEcho
  ∧ fields event !! "StackId" = Some (StackId body)
  ∧ fields event !! "RequestId" = Some (RequestId body)
  ∧ fields event !! "LogicalResourceId" = Some (LogicalResourceId body)
  ∧ Reason body ≠ ""
  ∧ Reason body
    = or_else reason
        ("See the details in CloudWatch Log Stream: " ++ log_stream_name context)
  ∧ PhysicalResourceId body
    = or_else physicalResourceId (log_stream_name context)
  ∧ len = pretty (String.length (json_dumps w body)).
Proof.
  unfold_cfn.
  assert (∀ A (l : list A) x, l ≠ (l ++ [x])%list) as Hneq.
  { intros A l x H. apply (f_equal length) in H.
    rewrite length_app in H. simpl in H. lia. }
  destruct (fields event !! "ResponseURL") as [u|]; [|by intros ?%Hneq].
  destruct (fields event !! "StackId") as [stack|]; [|by intros ?%Hneq].
  destruct (fields event !! "RequestId") as [request|]; [|by intros ?%Hneq].
  destruct (fields event !! "LogicalResourceId") as [logical|];
    [|by intros ?%Hneq].
  destruct (PyStr.startswith "https://" u); simpl; [|by intros ?%Hneq].
  intros H. apply app_inv_head in H. injection H as <- <- <-. simpl.
  split_and!; try done. by apply or_else_nonempty.
Qed.

(** ** The bucket handler *)

Ltac reduce_bounds :=
  cbn [Nat.ltb Nat.leb Nat.sub Nat.pow Nat.mul Nat.add fst snd
       reason status physical_resource_id failed with_reason] in *;
  cbv beta iota delta [String.append] in *;
  rewrite ?andb_false_r, ?andb_true_r.

Ltac unfold_bucket :=
  unfold BucketHandler.run, BucketHandler.handler, BucketHandler.decide,
    BucketHandler.exceeded, max_retries;
  cbn [seq for_else];
  unfold BucketHandler.iteration, BucketHandler.delete_step, max_retries;
  unfold_cfn; reduce_bounds.

Lemma bucket_decide_facts (w : cfn_world) (event : cfn_event)
    (context : lambda_context) :
  let name := default "" (default ∅ (ResourceProperties event) !! "BucketName") in
  ∃ st acts,
    BucketHandler.decide w event context [] = (Ok st, acts)
    ∧ (status st = SUCCESS ∨ status st = FAILED)
    ∧ PyStr.startswith "Exceeded retries" (reason st) = false
    ∧ forallb (fun a => negb (is_put a)) acts = true
    ∧ (acts `prefix_of`
         [NewClient "s3vectors" (default "us-east-1" (environ w !! "AWS_REGION"));
          CreateVectorBucket name; Sleep 1;
          CreateVectorBucket name; Sleep 2; CreateVectorBucket name]
       ∨ acts `prefix_of`
           [NewClient "s3vectors" (default "us-east-1" (environ w !! "AWS_REGION"));
            DeleteVectorBucket name; Sleep 1;
            DeleteVectorBucket name; Sleep 2; DeleteVectorBucket name]).
Proof.
  cbv zeta. unfold_bucket.
  repeat (reduce_bounds; split_match).
  all: reduce_bounds.
  all: eexists _, _; (split; [reflexivity|]).
  all: cbn [status reason failed with_reason].
  all: split; [auto|].
  all: split; [reflexivity|].
  all: split; [reflexivity|].
  all: first [ left; by eexists | right; by eexists ].
Qed.

(** Whatever the event and whatever the API does, the bucket handler ends
    by sending exactly one response, with status SUCCESS or FAILED and a
    reason that is not empty, provided the event has the callback URL on
    https and its three identifiers. Nothing is sent before it. *)
Theorem bucket_handler_always_answers (w : cfn_world) (event : cfn_event)
    (context : lambda_context) (url stack request logical : string) :
  fields event !! "ResponseURL" = Some url →
  PyStr.startswith "https://" url = true →
  fields event !! "StackId" = Some stack →
  fields event !! "RequestId" = Some request →
  fields event !! "LogicalResourceId" = Some logical →
  ∃ acts body,
    BucketHandler.run w event context
    = (requests_put w url (json_dumps w body),
       (acts ++ [HttpPut url body (pretty (String.length (json_dumps w body)))])%list)
    ∧ forallb (fun a => negb (is_put a)) acts = true
    ∧ (Status body = SUCCESS ∨ Status body = FAILED)
    ∧ Reason body ≠ ""
    ∧ StackId body = stack ∧ RequestId body = request
    ∧ LogicalResourceId body = logical.
Proof.
  intros Hu Hs Hst Hr Hl.
  destruct (bucket_decide_facts w event context)
    as (st & acts & Hd & Hstatus & _ & Hput & _).
  unfold BucketHandler.run, BucketHandler.handler.
  unfold mbind, C_bind, cbind. rewrite Hd.
  unfold_cfn. rewrite Hu, Hst, Hr, Hl, Hs. simpl.
  eexists acts, _. split; [reflexivity|]. simpl.
  split_and!; try done.
  change (or_else (Some (reason st))
            ("See the details in CloudWatch Log Stream: "
             ++ log_stream_name context) ≠ "").
  by apply or_else_nonempty.
Qed.

(** The bucket handler builds one client and then calls the API at most
    three times, always the same call, sleeping one second after the first
    failed attempt and two after the second, never after the third. *)
Theorem bucket_retry_schedule (w : cfn_world) (event : cfn_event)
    (context : lambda_context) :
  let name := default "" (default ∅ (ResourceProperties event) !! "BucketName") in
  let region := default "us-east-1" (environ w !! "AWS_REGION") in
  (BucketHandler.decide w event context []).2
  `prefix_of` [NewClient "s3vectors" region;
               CreateVectorBucket name; Sleep 1;
               CreateVectorBucket name; Sleep 2; CreateVectorBucket name]
  ∨ (BucketHandler.decide w event context []).2
    `prefix_of` [NewClient "s3vectors" region;
                 DeleteVectorBucket name; Sleep 1;
                 DeleteVectorBucket name; Sleep 2; DeleteVectorBucket name].
Proof.
  destruct (bucket_decide_facts w event context)
    as (st & acts & Hd & _ & _ & _ & Hsched).
  by rewrite Hd.
Qed.

(** The [else] clause of the retry loop never decides anything: the
    handler always reports SUCCESS or FAILED, and no reason it reports is
    the "Exceeded retries" text of that clause. *)
Theorem bucket_exceeded_retries_unreachable (w : cfn_world)
    (event : cfn_event) (context : lambda_context) :
  ∃ st,
    (BucketHandler.decide w event context []).1 = Ok st
    ∧ (status st = SUCCESS ∨ status st = FAILED)
    ∧ PyStr.startswith "Exceeded retries" (reason st) = false.
Proof.
  destruct (bucket_decide_facts w event context)
    as (st & acts & Hd & Hstatus & Hreason & _).
  exists st. by rewrite Hd.
Qed.

Ltac destruct_nonempty :=
  repeat match goal with
         | H : ?x ≠ "" |- _ => is_var x; destruct x; [done|]; clear H
         | H : ?x ≠ "" |- _ => clear H
         end.

Ltac bucket_start Hready :=
  destruct Hready as (Hrt & Hrtne & Hname & Hnamene & Htime & Hclient);
  apply Z.ltb_ge in Htime;
  unfold_bucket; rewrite Hrt, Hname, Htime, Hclient;
  destruct_nonempty; reduce_bounds.

(** When validation fails (request type or bucket name missing or empty,
    or less than ten seconds left) the bucket handler decides FAILED with the
    matching reason, builds no client and calls nothing; the physical id is
    left as the event gave it. *)
Theorem bucket_validation_failures (w : cfn_world) (event : cfn_event)
    (context : lambda_context) :
  let missing x := x = None ∨ x = Some "" in
  let verdict r :=
    BucketHandler.decide w event context []
    = (Ok {| status := FAILED; reason := r;
             physical_resource_id := fields event !! "PhysicalResourceId" |},
       []) in
  (missing (fields event !! "RequestType") → verdict "Missing RequestType")
  ∧ (¬ missing (fields event !! "RequestType") →
     missing (default ∅ (ResourceProperties event) !! "BucketName") →
     verdict "Missing BucketName")
  ∧ (¬ missing (fields event !! "RequestType") →
     ¬ missing (default ∅ (ResourceProperties event) !! "BucketName") →
     (remaining_time_in_millis context < 10000)%Z →
     verdict "Insufficient time").
Proof.
  cbv zeta. unfold BucketHandler.decide, mret, C_ret, cret. split_and!.
  - by intros [-> | ->].
  - intros Hrt [Hn | Hn]; rewrite Hn;
      destruct (fields event !! "RequestType") as [[|r0 rt]|];
      try done; destruct Hrt; auto.
  - intros Hrt Hn Htime. apply Z.ltb_lt in Htime. rewrite Htime.
    destruct (fields event !! "RequestType") as [[|r0 rt]|];
      [destruct Hrt; auto| |destruct Hrt; auto].
    destruct (default ∅ (ResourceProperties event) !! "BucketName")
      as [[|n0 name]|]; [destruct Hn; auto|done|destruct Hn; auto].
Qed.

(** Deleting a bucket that is already gone succeeds: on a
    [ResourceNotFoundException] or [BucketNotFound] the handler decides
    SUCCESS after that one call, without a retry. *)
Theorem bucket_delete_is_idempotent (w : cfn_world) (event : cfn_event)
    (context : lambda_context) (name code text : string) :
  bucket_ready w event context "Delete" name →
  code ∈ BucketHandler.not_found_codes →
  delete_vector_bucket w 0 name = Err (BotoClientError (Some code) text) →
  BucketHandler.decide w event context []
  = (Ok {| status := SUCCESS;
           reason := "Bucket " ++ name ++ " not found, no deletion needed";
           physical_resource_id :=
             Some (or_else (fields event !! "PhysicalResourceId")
                     ("vector-bucket-" ++ name)) |},
     [NewClient "s3vectors" (default "us-east-1" (environ w !! "AWS_REGION"));
      DeleteVectorBucket name]).
Proof.
  intros Hready Hcode Hdel.
  assert (code_in (Some code) BucketHandler.not_found_codes = true) as Hin.
  { unfold BucketHandler.not_found_codes in *.
    repeat (apply elem_of_cons in Hcode as [->|Hcode]; [reflexivity|]).
    inversion Hcode. }
  bucket_start Hready.
  change (String.eqb "Delete" "Create") with false.
  change (String.eqb "Delete" "Update") with false.
  change (String.eqb "Delete" "Delete") with true.
  cbv iota. rewrite Hdel. reduce_bounds. rewrite Hin. reflexivity.
Qed.

Ltac request_is rt :=
  match rt with
  | "Create" => change (String.eqb "Create" "Create") with true
  | "Update" =>
      change (String.eqb "Update" "Create") with false;
      change (String.eqb "Update" "Update") with true
  | "Delete" =>
      change (String.eqb "Delete" "Create") with false;
      change (String.eqb "Delete" "Update") with false;
      change (String.eqb "Delete" "Delete") with true
  end; cbv iota.

(** Creating the bucket is tried up to three times, whatever the error:
    the first attempt that succeeds decides SUCCESS, and after three failed
    attempts the handler decides FAILED with the text of the last error. *)
Theorem bucket_create_retries (w : cfn_world) (event : cfn_event)
    (context : lambda_context) (name : string) :
  bucket_ready w event context "Create" name →
  let client :=
    NewClient "s3vectors" (default "us-east-1" (environ w !! "AWS_REGION")) in
  let call := CreateVectorBucket name in
  let verdict s r log :=
    BucketHandler.decide w event context []
    = (Ok {| status := s; reason := r;
             physical_resource_id :=
               Some (or_else (fields event !! "PhysicalResourceId")
                       ("vector-bucket-" ++ name)) |}, log) in
  (create_vector_bucket w 0 name = Ok () →
   verdict SUCCESS ("Created bucket " ++ name) [client; call])
  ∧ (∀ e0, create_vector_bucket w 0 name = Err e0 →
       create_vector_bucket w 1 name = Ok () →
       verdict SUCCESS ("Created bucket " ++ name)
         [client; call; Sleep 1; call])
  ∧ (∀ e0 e1, create_vector_bucket w 0 name = Err e0 →
       create_vector_bucket w 1 name = Err e1 →
       create_vector_bucket w 2 name = Ok () →
       verdict SUCCESS ("Created bucket " ++ name)
         [client; call; Sleep 1; call; Sleep 2; call])
  ∧ (∀ e0 e1 e2, create_vector_bucket w 0 name = Err e0 →
       create_vector_bucket w 1 name = Err e1 →
       create_vector_bucket w 2 name = Err e2 →
       verdict FAILED ("Critical error during Create: " ++ short e2)
         [client; call; Sleep 1; call; Sleep 2; call]).
Proof.
  intros Hready. cbv zeta. split_and!; intros.
  all: bucket_start Hready; request_is "Create".
  all: repeat match goal with
              | H : create_vector_bucket _ _ _ = _ |- _ =>
                  rewrite H; clear H; reduce_bounds
              end.
  all: reflexivity.
Qed.

Lemma throttling_code_in (code : string) :
  code ∈ throttling_codes →
  code_in (Some code) throttling_codes = true
  ∧ code_in (Some code) BucketHandler.not_found_codes = false
  ∧ code_in (Some code) IndexHandler.not_found_codes = false.
Proof.
  unfold throttling_codes. intros H.
  repeat (apply elem_of_cons in H as [->|H]; [by vm_compute|]).
  inversion H.
Qed.

(** A throttled delete is retried: after two throttled attempts, with one
    and two seconds of sleep, the third attempt decides. If it succeeds the
    handler decides SUCCESS; if it fails with a client error other than
    not-found, throttling included, the handler decides FAILED and does not
    sleep again. *)
Theorem bucket_delete_throttled (w : cfn_world) (event : cfn_event)
    (context : lambda_context) (name code0 text0 code1 text1 : string) :
  bucket_ready w event context "Delete" name →
  code0 ∈ throttling_codes → code1 ∈ throttling_codes →
  delete_vector_bucket w 0 name = Err (BotoClientError (Some code0) text0) →
  delete_vector_bucket w 1 name = Err (BotoClientError (Some code1) text1) →
  let client :=
    NewClient "s3vectors" (default "us-east-1" (environ w !! "AWS_REGION")) in
  let call := DeleteVectorBucket name in
  let verdict s r :=
    BucketHandler.decide w event context []
    = (Ok {| status := s; reason := r;
             physical_resource_id :=
               Some (or_else (fields event !! "PhysicalResourceId")
                       ("vector-bucket-" ++ name)) |},
       [client; call; Sleep 1; call; Sleep 2; call]) in
  (delete_vector_bucket w 2 name = Ok () →
   verdict SUCCESS ("Deleted bucket " ++ name))
  ∧ (∀ code text,
       delete_vector_bucket w 2 name = Err (BotoClientError code text) →
       code_in code BucketHandler.not_found_codes = false →
       verdict FAILED ("Failed to delete bucket: " ++ String.substring 0 200 text)).
Proof.
  intros Hready (Ht0 & Hn0 & _)%throttling_code_in
    (Ht1 & Hn1 & _)%throttling_code_in Hd0 Hd1.
  cbv zeta. split_and!; intros.
  all: bucket_start Hready; request_is "Delete".
  all: rewrite Hd0; reduce_bounds; rewrite Hn0, Ht0; reduce_bounds.
  all: rewrite Hd1; reduce_bounds; rewrite Hn1, Ht1; reduce_bounds.
  - match goal with H : delete_vector_bucket _ 2 _ = _ |- _ => rewrite H end.
    reflexivity.
  - match goal with H : delete_vector_bucket _ 2 _ = _ |- _ => rewrite H end.
    reduce_bounds.
    match goal with H : code_in _ _ = false |- _ => rewrite H end.
    reflexivity.
Qed.

(** An update, or a request type the handler does not know, calls nothing
    after building the client and decides SUCCESS; for an unknown type the
    reason stays empty. *)
Theorem bucket_update_calls_nothing (w : cfn_world) (event : cfn_event)
    (context : lambda_context) (request_type name : string) :
  bucket_ready w event context request_type name →
  request_type ≠ "Create" → request_type ≠ "Delete" →
  BucketHandler.decide w event context []
  = (Ok {| status := SUCCESS;
           reason := if String.eqb request_type "Update"
                     then "Updated (no-op)" else "";
           physical_resource_id :=
             Some (or_else (fields event !! "PhysicalResourceId")
                     ("vector-bucket-" ++ name)) |},
     [NewClient "s3vectors" (default "us-east-1" (environ w !! "AWS_REGION"))]).
Proof.
  intros Hready Hc%String.eqb_neq Hd%String.eqb_neq.
  bucket_start Hready. rewrite Hc, Hd.
  by destruct (String.eqb _ "Update").
Qed.

(** ** The index handler *)

Ltac unfold_index :=
  unfold IndexHandler.run, IndexHandler.handler, IndexHandler.decide,
    IndexHandler.exceeded, max_retries;
  cbn [seq for_else];
  unfold IndexHandler.iteration, IndexHandler.delete_step, max_retries;
  unfold_cfn; reduce_bounds.

Lemma index_decide_facts (w : cfn_world) (event : cfn_event)
    (context : lambda_context) :
  let properties := default ∅ (ResourceProperties event) in
  let bucket :=
    default "" (IndexHandler.property_or_env w properties
                  "S3VectorBucket" "VECTOR_BUCKET") in
  let index :=
    default "" (IndexHandler.property_or_env w properties
                  "IndexName" "INDEX_NAME") in
  let client :=
    NewClient "s3vectors" (default "us-east-1" (environ w !! "AWS_REGION")) in
  ∃ st acts,
    IndexHandler.decide w event context [] = (Ok st, acts)
    ∧ (status st = SUCCESS ∨ status st = FAILED)
    ∧ forallb (fun a => negb (is_put a)) acts = true
    ∧ acts `prefix_of` [client; DeleteIndex bucket index; Sleep 1;
                        DeleteIndex bucket index; Sleep 2;
                        DeleteIndex bucket index]
    ∧ (fields event !! "RequestType" ≠ Some "Delete" →
       acts `prefix_of` [client]).
Proof.
  cbv zeta. unfold_index.
  destruct (IndexHandler.property_or_env w _ "S3VectorBucket" _) as [bucket|];
    destruct (IndexHandler.property_or_env w _ "IndexName" _) as [index|].
  all: repeat (reduce_bounds; split_match).
  all: reduce_bounds.
  all: eexists _, _; (split; [reflexivity|]).
  all: split; [auto|].
  all: split; [reflexivity|].
  all: split; [by eexists|].
  all: intros Hne.
  all: try match goal with
           | H : String.eqb _ "Delete" = true |- _ =>
               apply String.eqb_eq in H; congruence
           end.
  all: by eexists.
Qed.

(** Whatever the event and whatever the API does, the index handler ends
    by sending exactly one response, with status SUCCESS or FAILED and a
    reason that is not empty, provided the event has the callback URL on
    https and its three identifiers. Nothing is sent before it. *)
Theorem index_handler_always_answers (w : cfn_world) (event : cfn_event)
    (context : lambda_context) (url stack request logical : string) :
  fields event !! "ResponseURL" = Some url →
  PyStr.startswith "https://" url = true →
  fields event !! "StackId" = Some stack →
  fields event !! "RequestId" = Some request →
  fields event !! "LogicalResourceId" = Some logical →
  ∃ acts body,
    IndexHandler.run w event context
    = (requests_put w url (json_dumps w body),
       (acts ++ [HttpPut url body (pretty (String.length (json_dumps w body)))])%list)
    ∧ forallb (fun a => negb (is_put a)) acts = true
    ∧ (Status body = SUCCESS ∨ Status body = FAILED)
    ∧ Reason body ≠ ""
    ∧ StackId body = stack ∧ RequestId body = request
    ∧ LogicalResourceId body = logical.
Proof.
  intros Hu Hs Hst Hr Hl.
  destruct (index_decide_facts w event context)
    as (st & acts & Hd & Hstatus & Hput & _).
  unfold IndexHandler.run, IndexHandler.handler.
  unfold mbind, C_bind, cbind. rewrite Hd.
  unfold_cfn. rewrite Hu, Hst, Hr, Hl, Hs. simpl.
  eexists acts, _. split; [reflexivity|]. simpl.
  split_and!; try done.
  change (or_else (Some (reason st))
            ("See the details in CloudWatch Log Stream: "
             ++ log_stream_name context) ≠ "").
  by apply or_else_nonempty.
Qed.

(** The index handler touches the index only to delete it: for any request
    type other than Delete it calls no API at all, and for Delete it calls
    [delete_index] at most three times, sleeping one and then two seconds
    between the attempts. *)
Theorem index_only_delete_calls_api (w : cfn_world) (event : cfn_event)
    (context : lambda_context) :
  let properties := default ∅ (ResourceProperties event) in
  let bucket :=
    default "" (IndexHandler.property_or_env w properties
                  "S3VectorBucket" "VECTOR_BUCKET") in
  let index :=
    default "" (IndexHandler.property_or_env w properties
                  "IndexName" "INDEX_NAME") in
  let client :=
    NewClient "s3vectors" (default "us-east-1" (environ w !! "AWS_REGION")) in
  (IndexHandler.decide w event context []).2
  `prefix_of` [client; DeleteIndex bucket index; Sleep 1;
               DeleteIndex bucket index; Sleep 2; DeleteIndex bucket index]
  ∧ (fields event !! "RequestType" ≠ Some "Delete" →
     (IndexHandler.decide w event context []).2 `prefix_of` [client]).
Proof.
  destruct (index_decide_facts w event context)
    as (st & acts & Hd & _ & _ & Hsched & Hother).
  cbv zeta. by rewrite Hd.
Qed.

Ltac index_start Hready :=
  destruct Hready
    as (Hrt & Hrtne & Hb & Hbne & Hi & Hine & Htime & Hclient);
  apply Z.ltb_ge in Htime;
  unfold_index; rewrite Hrt, Hb, Hi;
  destruct_nonempty; reduce_bounds;
  cbn [IndexHandler.falsy orb default from_option id];
  rewrite Htime, Hclient; reduce_bounds.

(** The names of the bucket and the index come from the resource
    properties and, for a property that is absent, from the environment. A
    successful delete is made with those names and decides SUCCESS; the
    physical id is the one of the event or else is built from the two
    names. *)
Theorem index_delete_uses_resolved_names (w : cfn_world) (event : cfn_event)
    (context : lambda_context) (bucket index : string) :
  index_ready w event context "Delete" bucket index →
  delete_index w 0 bucket index = Ok () →
  IndexHandler.decide w event context []
  = (Ok {| status := SUCCESS;
           reason := "Deleted index " ++ index;
           physical_resource_id :=
             Some (or_else (fields event !! "PhysicalResourceId")
                     ("index-" ++ bucket ++ "-" ++ index)) |},
     [NewClient "s3vectors" (default "us-east-1" (environ w !! "AWS_REGION"));
      DeleteIndex bucket index]).
Proof.
  intros Hready Hdel.
  index_start Hready. request_is "Delete".
  rewrite Hdel. reflexivity.
Qed.

(** A property that is present but empty is not replaced by the
    environment variable: with an empty [S3VectorBucket] or [IndexName]
    property the handler decides FAILED for missing parameters, whatever the
    environment holds, and calls nothing. The same holds when a name is in
    neither place. *)
Theorem index_missing_parameters (w : cfn_world) (event : cfn_event)
    (context : lambda_context) (request_type : string) :
  fields event !! "RequestType" = Some request_type →
  request_type ≠ "" →
  let properties := default ∅ (ResourceProperties event) in
  let verdict :=
    IndexHandler.decide w event context []
    = (Ok {| status := FAILED; reason := "Missing parameters";
             physical_resource_id := fields event !! "PhysicalResourceId" |},
       []) in
  (properties !! "S3VectorBucket" = Some "" → verdict)
  ∧ (properties !! "IndexName" = Some "" → verdict)
  ∧ (properties !! "S3VectorBucket" = None →
     environ w !! "VECTOR_BUCKET" = None → verdict)
  ∧ (properties !! "IndexName" = None →
     environ w !! "INDEX_NAME" = None → verdict).
Proof.
  intros Hrt Hne. cbv zeta.
  unfold IndexHandler.decide, IndexHandler.property_or_env, mret, C_ret, cret.
  rewrite Hrt. destruct request_type as [|r0 rt]; [done|].
  split_and!.
  - intros ->. reflexivity.
  - intros ->. simpl. by rewrite orb_true_r.
  - intros -> ->. reflexivity.
  - intros -> ->. simpl. by rewrite orb_true_r.
Qed.

(** * Instances of the further properties *)

Lemma hybrid_score_unit_interval_backfill :
  ∃ cs c,
    score_batch Leadership (all_keywords (PyStr.lower ciso_query))
      [leadership_doc; technical_doc] = Returned cs
    ∧ c ∈ cs
    ∧ doc_id (base c) = "doc-tech"
    ∧ (0 <= hybrid_score c)%Q ∧ (hybrid_score c <= 1)%Q.
Proof.
  destruct (score_batch Leadership (all_keywords (PyStr.lower ciso_query))
              [leadership_doc; technical_doc]) as [cs|] eqn:E;
    [|vm_compute in E; discriminate].
  destruct cs as [|c0 [|c [|? ?]]];
    try (exfalso; vm_compute in E; discriminate).
  assert (doc_id (base c) = "doc-tech") as Hid.
  { pose proof E as E'. vm_compute in E'. injection E' as _ <-. reflexivity. }
  exists [c0; c], c. split; [reflexivity|].
  split; [right; left|]. split; [exact Hid|].
  apply (hybrid_score_unit_interval Leadership
           (all_keywords (PyStr.lower ciso_query))
           [leadership_doc; technical_doc] [c0; c] c E).
  - intros v Hv.
    apply elem_of_cons in Hv as [->|Hv];
      [|apply list_elem_of_singleton in Hv as ->];
      split; vm_compute; discriminate.
  - right; left.
Defined.

Lemma best_match_normalizes_to_one_sample :
  ∃ c, c ∈ [sample_scored 0.4 0; sample_scored 0.2 0]
       ∧ (norm_kw [sample_scored 0.4 0; sample_scored 0.2 0] c == 1)%Q.
Proof.
  destruct (proj1 (best_match_normalizes_to_one
                     [sample_scored 0.4 0; sample_scored 0.2 0]))
    as (c & Hc & _ & Hn).
  - exists (sample_scored 0.2 0). split; [right; left|]. vm_compute. reflexivity.
  - exists c. split; [exact Hc|exact Hn].
Defined.

Lemma pass_size_backfill :
  ∃ cs valid,
    score_batch Leadership (all_keywords (PyStr.lower ciso_query))
      [leadership_doc; technical_doc] = Returned cs
    ∧ run_pass Leadership (all_keywords (PyStr.lower ciso_query))
        [leadership_doc; technical_doc] = Returned valid
    ∧ (length valid ≤ 2)%nat.
Proof.
  destruct (score_batch Leadership (all_keywords (PyStr.lower ciso_query))
              [leadership_doc; technical_doc]) as [cs|] eqn:E;
    [|vm_compute in E; discriminate].
  destruct (run_pass Leadership (all_keywords (PyStr.lower ciso_query))
              [leadership_doc; technical_doc]) as [valid|] eqn:Ep;
    [|vm_compute in Ep; discriminate].
  exists cs, valid. split; [reflexivity|]. split; [reflexivity|].
  destruct (pass_size _ _ _ _ _ E Ep) as (_ & Hvs & _). exact Hvs.
Defined.

Lemma recommendation_label_ranked :
  ∃ env text,
    (run_tool ranked_world ciso_query).1 = Returned env
    ∧ is_success env
    ∧ final_recommendation env = Some text
    ∧ PyStr.startswith "Highly recommended: Relevant for agentic AI security."
        text = true.
Proof.
  destruct (run_tool ranked_world ciso_query).1 as [env|] eqn:E;
    [|vm_compute in E; discriminate].
  assert (is_success env) as Hs.
  { pose proof E as E'. vm_compute in E'. injection E' as <-.
    unfold is_success. simpl. eauto. }
  destruct (recommendation_label ranked_world ciso_query env E Hs)
    as (r1 & r2 & s1 & s2 & Hrs & Htext).
  eexists env, _. split; [reflexivity|]. split; [exact Hs|].
  split; [exact Htext|].
  vm_compute in E. injection E as <-. injection Hrs as <- <-.
  vm_compute. reflexivity.
Defined.

Lemma missing_key_fails_query_keyless :
  clients_outcome keyless_world = Returned ()
  ∧ keyless_doc ∈ [leadership_doc; keyless_doc; technical_doc]
  ∧ (run_tool keyless_world ciso_query).1
    = Returned (message_only "Exception: 'key'").
Proof.
  assert (keyless_doc ∈ [leadership_doc; keyless_doc; technical_doc]) as Hin
    by (right; left).
  split; [reflexivity|]. split; [exact Hin|].
  rewrite (missing_key_fails_query keyless_world ciso_query [0.25%Q; 0.5%Q]
             [leadership_doc; keyless_doc; technical_doc] keyless_doc);
    reflexivity || exact Hin.
Defined.

Lemma retry_error_discards_results_throttled :
  ∃ emb valid,
    first_pass throttled_retry_world ciso_query = Some (emb, valid)
    ∧ length valid = 1%nat
    ∧ (run_tool throttled_retry_world ciso_query).1
      = Returned (message_only "ClientError: ThrottlingException").
Proof.
  destruct (first_pass throttled_retry_world ciso_query)
    as [[emb valid]|] eqn:E; [|vm_compute in E; discriminate].
  assert (length valid = 1%nat ∧ emb = [0.25%Q; 0.5%Q]) as [Hlen Hemb].
  { pose proof E as E'. vm_compute in E'. injection E' as <- <-. by split. }
  exists emb, valid. split; [reflexivity|]. split; [exact Hlen|].
  destruct (retry_error_discards_results throttled_retry_world ciso_query
              emb valid (ClientError "ThrottlingException") E) as (Hrun & _);
    [lia|by rewrite Hemb|exact Hrun].
Defined.

Lemma retry_replaces_first_pass_losing :
  ∃ emb valid env,
    first_pass losing_retry_world ciso_query = Some (emb, valid)
    ∧ length valid = 1%nat
    ∧ (run_tool losing_retry_world ciso_query).1 = Returned env
    ∧ results env = Some [].
Proof.
  destruct (first_pass losing_retry_world ciso_query)
    as [[emb valid]|] eqn:E; [|vm_compute in E; discriminate].
  assert (length valid = 1%nat ∧ emb = [0.25%Q; 0.5%Q]) as [Hlen Hemb].
  { pose proof E as E'. vm_compute in E'. injection E' as <- <-. by split. }
  destruct (retry_replaces_first_pass losing_retry_world ciso_query
              emb valid [] [unlinked_doc] E) as (env & Hrun & Hshort & _).
  - lia.
  - by rewrite Hemb.
  - discriminate.
  - vm_compute. reflexivity.
  - exists emb, valid, env. split; [reflexivity|]. split; [exact Hlen|].
    split; [exact Hrun|]. apply Hshort. simpl. lia.
Defined.

Lemma embedding_failure_skips_index_sample :
  clients_outcome no_embedding_world = Returned ()
  ∧ invoke_model no_embedding_world ciso_query = Returned None
  ∧ run_tool no_embedding_world ciso_query
    = (Returned (message_only "NO_RELEVANT_OUTPUT"),
       [CreateClient "bedrock-runtime"; CreateClient "s3vectors";
        InvokeModel ciso_query]).
Proof.
  split; [reflexivity|]. split; [reflexivity|].
  apply (proj1 (embedding_failure_skips_index no_embedding_world ciso_query
                  eq_refl)).
  reflexivity.
Defined.

Lemma wrappers_are_transparent_sample :
  all_in wrapper_chars ("b" ++ squote ++ dquote) = true
  ∧ all_in wrapper_chars (dquote ++ squote) = true
  ∧ clean_response (("b" ++ squote ++ dquote) ++ "{}" ++ (dquote ++ squote))
    = "{}".
Proof.
  split; [reflexivity|]. split; [reflexivity|].
  rewrite (wrappers_are_transparent ("b" ++ squote ++ dquote)
             (dquote ++ squote) "{}"); reflexivity.
Defined.

Lemma plain_text_unchanged_sample :
  clean_response ("{" ++ dquote ++ "ok" ++ dquote ++ ": 1}")
  = "{" ++ dquote ++ "ok" ++ dquote ++ ": 1}".
Proof.
  apply (plain_text_unchanged "{" "}" (dquote ++ "ok" ++ dquote ++ ": 1"));
    reflexivity.
Defined.

Lemma clean_undoes_escape_sample :
  escape ("{" ++ dquote ++ "ok" ++ dquote ++ ": 1}")
  = "{" ++ backslash ++ dquote ++ "ok" ++ backslash ++ dquote ++ ": 1}"
  ∧ clean_response
      (dquote
       ++ ("{" ++ backslash ++ dquote ++ "ok" ++ backslash ++ dquote ++ ": 1}")
       ++ dquote)
    = "{" ++ dquote ++ "ok" ++ dquote ++ ": 1}".
Proof.
  split; [reflexivity|].
  apply (clean_undoes_escape dquote dquote
           (dquote ++ "ok" ++ dquote ++ ": 1") "{" "}"); reflexivity.
Defined.

Lemma send_body_sample :
  let w := sample_cfn_world ∅ (fun _ => Ok ()) in
  let event := sample_event "Create" bucket_properties in
  let body :=
    {| Status := "SUCCESS";
       Reason := "See the details in CloudWatch Log Stream: 2025/08/13/stream";
       PhysicalResourceId := "2025/08/13/stream";
       StackId := "stack-1"; RequestId := "request-1";
       LogicalResourceId := "VectorBucket"; NoEcho := false; Data := ∅ |} in
  (send w event sample_context "SUCCESS" ∅ None false (Some "") []).2
  = [HttpPut "https://cloudformation.example.com/callback" body "68"]
  ∧ Reason body ≠ "".
Proof.
  cbv zeta.
  assert ((send (sample_cfn_world ∅ (fun _ => Ok ()))
             (sample_event "Create" bucket_properties) sample_context
             "SUCCESS" ∅ None false (Some "") []).2
          = ([] ++ [HttpPut "https://cloudformation.example.com/callback"
                      {| Status := "SUCCESS";
                         Reason := "See the details in CloudWatch Log Stream: 2025/08/13/stream";
                         PhysicalResourceId := "2025/08/13/stream";
                         StackId := "stack-1"; RequestId := "request-1";
                         LogicalResourceId := "VectorBucket"; NoEcho := false;
                         Data := ∅ |} "68"])%list) as H by reflexivity.
  split; [exact H|].
  exact (proj1 (proj2 (proj2 (proj2 (proj2 (proj2 (proj2
           (send_body _ _ _ _ _ _ _ _ _ _ _ _ H)))))))).
Defined.

Lemma bucket_handler_always_answers_sample :
  ∃ acts body,
    BucketHandler.run (sample_cfn_world ∅ (fun _ => Ok ()))
      (sample_event "Create" bucket_properties) sample_context
    = (Ok (),
       (acts ++ [HttpPut "https://cloudformation.example.com/callback" body
                   (pretty (String.length (Status body ++ ": " ++ Reason body)))])%list)
    ∧ Reason body ≠ "".
Proof.
  destruct (bucket_handler_always_answers (sample_cfn_world ∅ (fun _ => Ok ()))
              (sample_event "Create" bucket_properties) sample_context
              "https://cloudformation.example.com/callback"
              "stack-1" "request-1" "VectorBucket")
    as (acts & body & Hrun & _ & _ & Hreason & _); try reflexivity.
  exists acts, body. split; [exact Hrun|exact Hreason].
Defined.

Lemma bucket_ready_sample (request_type : string) (answer : nat → res unit) :
  request_type ≠ "" →
  bucket_ready (sample_cfn_world ∅ answer)
    (sample_event request_type bucket_properties) sample_context
    request_type "transcripts".
Proof.
  intros Hne. unfold bucket_ready. split_and!; try done.
Qed.

Lemma bucket_delete_is_idempotent_sample :
  "ResourceNotFoundException" ∈ BucketHandler.not_found_codes
  ∧ (BucketHandler.decide (sample_cfn_world ∅ (fun _ => not_found))
       (sample_event "Delete" bucket_properties) sample_context []).1
    = Ok {| status := SUCCESS;
            reason := "Bucket transcripts not found, no deletion needed";
            physical_resource_id := Some "vector-bucket-transcripts" |}.
Proof.
  assert ("ResourceNotFoundException" ∈ BucketHandler.not_found_codes) as Hin
    by left.
  split; [exact Hin|].
  rewrite (bucket_delete_is_idempotent (sample_cfn_world ∅ (fun _ => not_found))
             (sample_event "Delete" bucket_properties) sample_context
             "transcripts" "ResourceNotFoundException" "No such resource").
  - reflexivity.
  - by apply bucket_ready_sample.
  - exact Hin.
  - reflexivity.
Defined.

Lemma bucket_create_retries_sample :
  BucketHandler.decide (sample_cfn_world ∅ (after_two_throttles (Ok ())))
    (sample_event "Create" bucket_properties) sample_context []
  = (Ok {| status := SUCCESS; reason := "Created bucket transcripts";
           physical_resource_id := Some "vector-bucket-transcripts" |},
     [NewClient "s3vectors" "us-east-1";
      CreateVectorBucket "transcripts"; Sleep 1;
      CreateVectorBucket "transcripts"; Sleep 2;
      CreateVectorBucket "transcripts"]).
Proof.
  destruct (bucket_create_retries
              (sample_cfn_world ∅ (after_two_throttles (Ok ())))
              (sample_event "Create" bucket_properties) sample_context
              "transcripts") as (_ & _ & H & _).
  - by apply bucket_ready_sample.
  - exact (H _ _ eq_refl eq_refl eq_refl).
Defined.

Lemma bucket_delete_throttled_sample :
  "ThrottlingException" ∈ throttling_codes
  ∧ BucketHandler.decide (sample_cfn_world ∅ (after_two_throttles throttled))
      (sample_event "Delete" bucket_properties) sample_context []
    = (Ok {| status := FAILED;
             reason := "Failed to delete bucket: Rate exceeded";
             physical_resource_id := Some "vector-bucket-transcripts" |},
       [NewClient "s3vectors" "us-east-1";
        DeleteVectorBucket "transcripts"; Sleep 1;
        DeleteVectorBucket "transcripts"; Sleep 2;
        DeleteVectorBucket "transcripts"]).
Proof.
  assert ("ThrottlingException" ∈ throttling_codes) as Hin by left.
  split; [exact Hin|].
  destruct (bucket_delete_throttled
              (sample_cfn_world ∅ (after_two_throttles throttled))
              (sample_event "Delete" bucket_properties) sample_context
              "transcripts" "ThrottlingException" "Rate exceeded"
              "ThrottlingException" "Rate exceeded") as (_ & H).
  - by apply bucket_ready_sample.
  - exact Hin.
  - exact Hin.
  - reflexivity.
  - reflexivity.
  - exact (H _ _ eq_refl eq_refl).
Defined.

Lemma bucket_update_calls_nothing_sample :
  BucketHandler.decide (sample_cfn_world ∅ (fun _ => throttled))
    (sample_event "Update" bucket_properties) sample_context []
  = (Ok {| status := SUCCESS; reason := "Updated (no-op)";
           physical_resource_id := Some "vector-bucket-transcripts" |},
     [NewClient "s3vectors" "us-east-1"]).
Proof.
  rewrite (bucket_update_calls_nothing (sample_cfn_world ∅ (fun _ => throttled))
             (sample_event "Update" bucket_properties) sample_context
             "Update" "transcripts").
  - reflexivity.
  - by apply bucket_ready_sample.
  - discriminate.
  - discriminate.
Defined.

Lemma index_handler_always_answers_sample :
  ∃ acts body,
    IndexHandler.run (sample_cfn_world index_environment (fun _ => Ok ()))
      (sample_event "Delete" ∅) sample_context
    = (Ok (),
       (acts ++ [HttpPut "https://cloudformation.example.com/callback" body
                   (pretty (String.length (Status body ++ ": " ++ Reason body)))])%list)
    ∧ Reason body ≠ "".
Proof.
  destruct (index_handler_always_answers
              (sample_cfn_world index_environment (fun _ => Ok ()))
              (sample_event "Delete" ∅) sample_context
              "https://cloudformation.example.com/callback"
              "stack-1" "request-1" "VectorBucket")
    as (acts & body & Hrun & _ & _ & Hreason & _); try reflexivity.
  exists acts, body. split; [exact Hrun|exact Hreason].
Defined.

Lemma index_delete_uses_resolved_names_sample :
  IndexHandler.decide (sample_cfn_world index_environment (fun _ => Ok ()))
    (sample_event "Delete" {[ "IndexName" := "from-properties" ]})
    sample_context []
  = (Ok {| status := SUCCESS; reason := "Deleted index from-properties";
           physical_resource_id := Some "index-vectors-from-properties" |},
     [NewClient "s3vectors" "us-east-1";
      DeleteIndex "vectors" "from-properties"]).
Proof.
  rewrite (index_delete_uses_resolved_names
             (sample_cfn_world index_environment (fun _ => Ok ()))
             (sample_event "Delete" {[ "IndexName" := "from-properties" ]})
             sample_context "vectors" "from-properties").
  - reflexivity.
  - unfold index_ready. split_and!; try done.
  - reflexivity.
Defined.

Lemma index_missing_parameters_sample :
  environ (sample_cfn_world index_environment (fun _ => Ok ())) !! "INDEX_NAME"
  = Some "transcript-index"
  ∧ IndexHandler.decide (sample_cfn_world index_environment (fun _ => Ok ()))
      (sample_event "Delete" {[ "IndexName" := "" ]}) sample_context []
    = (Ok {| status := FAILED; reason := "Missing parameters";
             physical_resource_id := None |}, []).
Proof.
  split; [reflexivity|].
  destruct (index_missing_parameters
              (sample_cfn_world index_environment (fun _ => Ok ()))
              (sample_event "Delete" {[ "IndexName" := "" ]}) sample_context
              "Delete") as (_ & H & _).
  - reflexivity.
  - discriminate.
  - exact (H eq_refl).
Defined.

Lemma clusters_partition_sample :
  {| base := sample_scored 0 0; hybrid_score := 0.5 |}
  ∈ leadership_candidates [{| base := sample_scored 0 0; hybrid_score := 0.5 |}]
  ∧ {| base := sample_scored 0 0; hybrid_score := 0.5 |}
    ∉ technical_candidates [{| base := sample_scored 0 0; hybrid_score := 0.5 |}].
Proof.
  destruct (clusters_partition
              [{| base := sample_scored 0 0; hybrid_score := 0.5 |}])
    as (_ & _ & H).
  destruct (H {| base := sample_scored 0 0; hybrid_score := 0.5 |}) as [H1 H2].
  - apply list_elem_of_here.
  - split.
    + apply H1. vm_compute. reflexivity.
    + intros Hin. apply H2 in Hin. vm_compute in Hin. discriminate.
Defined.

Lemma keywords_have_two_chars_sample :
  "ai" ∈ all_keywords "a ai" ∧ "a" ∉ all_keywords "a ai".
Proof.
  assert (E : PyStr.split "a ai" = ["a"; "ai"]) by (vm_compute; reflexivity).
  destruct (keywords_have_two_chars "a ai") as [_ H].
  split.
  - apply H.
    + rewrite E. apply list_elem_of_further, list_elem_of_here.
    + vm_compute. lia.
  - intros Hin. apply H in Hin.
    + vm_compute in Hin. lia.
    + rewrite E. apply list_elem_of_here.
Defined.

Lemma bucket_validation_failures_sample :
  BucketHandler.decide (sample_cfn_world ∅ (fun _ => Ok ()))
    (sample_event "Create" ∅) sample_context []
  = (Ok {| status := FAILED; reason := "Missing BucketName";
           physical_resource_id := None |}, []).
Proof.
  pose proof (bucket_validation_failures (sample_cfn_world ∅ (fun _ => Ok ()))
                (sample_event "Create" ∅) sample_context) as H.
  cbv zeta in H. destruct H as (_ & H & _).
  rewrite H.
  - reflexivity.
  - intros [E|E]; vm_compute in E; discriminate.
  - left. reflexivity.
Defined.

Lemma index_only_delete_calls_api_sample :
  (IndexHandler.decide (sample_cfn_world index_environment (fun _ => throttled))
     (sample_event "Create" ∅) sample_context []).2
  `prefix_of` [NewClient "s3vectors" "us-east-1"].
Proof.
  pose proof (index_only_delete_calls_api
                (sample_cfn_world index_environment (fun _ => throttled))
                (sample_event "Create" ∅) sample_context) as H.
  cbv zeta in H. destruct H as [_ H].
  exact (H ltac:(vm_compute; discriminate)).
Defined.
